(** * nextBankBackend: the session / OTP lifecycle and the balance protocol

    A shallow embedding of [src/server.js].  Every Express handler is
    written as a program over the SQL statements it awaits; the statements
    are given a meaning on three tables, and a handler is run either to
    completion (one request at a time) or interleaved with other handlers,
    statement by statement, which is where the event loop may switch from
    one request to another. *)

From Stdlib Require Import ZArith List String Bool Lia Floats DecimalString.
Import ListNotations.

Local Open Scope string_scope.
Local Open Scope list_scope.
Local Open Scope Z_scope.

(** ** Tables

    Column names follow the SQL text of the handlers:
    [users(id, username, password)], [sessions(user_id, otp,
    login_timestamp)] and [accounts(user_id, balance)]. *)

Module Users.
Record row := mk { id : Z; username : string; password : string }.
End Users.

Module Sessions.
Record row := mk { user_id : Z; otp : string; login_timestamp : Z }.
End Sessions.

Module Accounts.
Record row := mk { user_id : Z; balance : float }.
End Accounts.

(** The store: the three tables and the next value of [users.id]. *)
Record db := mkDb {
  users : list Users.row;
  sessions : list Sessions.row;
  accounts : list Accounts.row;
  next_id : Z
}.

Definition empty_db : db := mkDb [] [] [] 1.

(** ** Schema

    The [CREATE TABLE] statements are not part of the source, so what the
    tables enforce is a parameter of the model. *)

(** What a foreign key to [users(id)] does, if the table declares one. *)
Variant foreign_key := NoForeignKey | OnDeleteRestrict | OnDeleteCascade.

Record schema := mkSchema {
  username_unique : bool;
  sessions_user_id_unique : bool;
  accounts_user_id_unique : bool;
  sessions_fk : foreign_key;
  accounts_fk : foreign_key
}.

(** Modelled from the spec: the persisted schema of its section 6, which is
    missing from the source: [users(id, username unique, password_hash)],
    [sessions(user_id unique FK, otp, created_at)], [accounts(user_id unique
    FK, balance)], where deleting a user cascades to the session and the
    account. *)
Definition spec_schema : schema :=
  mkSchema true true true OnDeleteCascade OnDeleteCascade.

(** A schema that enforces nothing. *)
Definition bare_schema : schema :=
  mkSchema false false false NoForeignKey NoForeignKey.

(** ** Statements

    One constructor per SQL text of [server.js]; the index is the type of
    the rows (or of the result header field) the handler reads. *)

Inductive stmt : Type -> Type :=
| InsertUser (username password : string) : stmt unit
    (* INSERT INTO users (username, password) VALUES ( ?, ? ) *)
| SelectUser (username : string) : stmt (list Users.row)
    (* SELECT * FROM users WHERE username = ? *)
| UpdatePassword (password : string) (id : Z) : stmt unit
    (* UPDATE users SET password = ? WHERE id = ? *)
| DeleteUser (username : string) : stmt unit
    (* DELETE FROM users WHERE username = ? *)
| InsertAccount (user_id : Z) (balance : float) : stmt unit
    (* INSERT INTO accounts (user_id, balance) VALUES ( ?, ? ) *)
| SelectBalance (user_id : Z) : stmt (list float)
    (* SELECT balance FROM accounts WHERE user_id = ? *)
| UpdateBalance (balance : float) (user_id : Z) : stmt unit
    (* UPDATE accounts SET balance = ? WHERE user_id = ? *)
| InsertSession (user_id : Z) (otp : string) : stmt unit
    (* INSERT INTO sessions ( user_id, otp ) VALUES ( ?, ? ) *)
| SelectSessions (user_id : Z) : stmt (list Sessions.row)
    (* SELECT * FROM sessions WHERE user_id = ? *)
| SelectSession (user_id : Z) (otp : string) : stmt (list Sessions.row)
    (* SELECT * FROM sessions WHERE user_id = ? AND otp = ? *)
| DeleteSessions (user_id : Z) : stmt unit
    (* DELETE FROM sessions WHERE user_id = ? *)
| DeleteSession (user_id : Z) (otp : string) : stmt unit
    (* DELETE FROM sessions WHERE user_id = ? AND otp = ? *)
| DeleteSessionsBefore (cutOff : Z) : stmt nat
    (* DELETE FROM sessions WHERE login_timestamp < ?   (affectedRows) *).

(** What a rejected promise carries. *)
Variant exn :=
| DuplicateEntry      (* a unique key is violated *)
| ForeignKeyFails     (* a foreign key is violated *)
| StoreUnavailable    (* the call to the store failed *)
| TypeError.          (* a property of [undefined] is read *)

Variant outcome (A : Type) :=
| Ok (a : A)
| Err (e : exn).
Arguments Ok {A} a.
Arguments Err {A} e.

(** *** Row predicates *)

Definition named (u : string) (r : Users.row) : bool :=
  String.eqb (Users.username r) u.

Definition session_of (uid : Z) (s : Sessions.row) : bool :=
  Sessions.user_id s =? uid.

Definition session_is (uid : Z) (o : string) (s : Sessions.row) : bool :=
  (Sessions.user_id s =? uid) && String.eqb (Sessions.otp s) o.

Definition account_of (uid : Z) (a : Accounts.row) : bool :=
  Accounts.user_id a =? uid.

Definition has_user (uid : Z) (d : db) : bool :=
  existsb (fun r => Users.id r =? uid) (users d).

(** The ids of the users a [DELETE FROM users WHERE username = ?] removes. *)
Definition ids_named (u : string) (d : db) : list Z :=
  map Users.id (filter (named u) (users d)).

Definition mem (uid : Z) (l : list Z) : bool := existsb (Z.eqb uid) l.

(** A child table's rows that survive the deletion of the users [gone]. *)
Definition survivors {R} (fk : foreign_key) (owner : R -> Z) (gone : list Z)
    (rows : list R) : list R :=
  match fk with
  | OnDeleteCascade => filter (fun r => negb (mem (owner r) gone)) rows
  | _ => rows
  end.

(** A restricting foreign key refuses the deletion while a child row is left. *)
Definition restricted {R} (fk : foreign_key) (owner : R -> Z) (gone : list Z)
    (rows : list R) : bool :=
  match fk with
  | OnDeleteRestrict => existsb (fun r => mem (owner r) gone) rows
  | _ => false
  end.

(** A foreign key (of either kind) refuses a child row without its user. *)
Definition orphan (fk : foreign_key) (uid : Z) (d : db) : bool :=
  match fk with
  | NoForeignKey => false
  | _ => negb (has_user uid d)
  end.

Definition set_users (d : db) (l : list Users.row) : db :=
  mkDb l (sessions d) (accounts d) (next_id d).
Definition set_sessions (d : db) (l : list Sessions.row) : db :=
  mkDb (users d) l (accounts d) (next_id d).
Definition set_accounts (d : db) (l : list Accounts.row) : db :=
  mkDb (users d) (sessions d) l (next_id d).

(** ** Meaning of a statement

    [exec sch now q d]: the result the awaited promise settles with, and the
    store afterwards.  [now] is the store's clock, which stamps a new session
    row ([login_timestamp] is not among the inserted columns), and the store
    numbers a new user row itself ([id] is not among them either).  Names
    and codes are compared character by character. *)
Definition exec (sch : schema) (now : Z) {T} (q : stmt T) (d : db)
    : outcome T * db :=
  match q in stmt T return outcome T * db with
  | InsertUser u p =>
      if username_unique sch && existsb (named u) (users d)
      then (Err DuplicateEntry, d)
      else (Ok tt,
            mkDb (users d ++ [Users.mk (next_id d) u p]) (sessions d)
                 (accounts d) (next_id d + 1))
  | SelectUser u => (Ok (filter (named u) (users d)), d)
  | UpdatePassword p uid =>
      (Ok tt,
       set_users d
         (map (fun r => if Users.id r =? uid
                        then Users.mk (Users.id r) (Users.username r) p
                        else r) (users d)))
  | DeleteUser u =>
      let gone := ids_named u d in
      if restricted (sessions_fk sch) Sessions.user_id gone (sessions d)
         || restricted (accounts_fk sch) Accounts.user_id gone (accounts d)
      then (Err ForeignKeyFails, d)
      else (Ok tt,
            mkDb (filter (fun r => negb (named u r)) (users d))
                 (survivors (sessions_fk sch) Sessions.user_id gone
                            (sessions d))
                 (survivors (accounts_fk sch) Accounts.user_id gone
                            (accounts d))
                 (next_id d))
  | InsertAccount uid b =>
      if orphan (accounts_fk sch) uid d then (Err ForeignKeyFails, d)
      else if accounts_user_id_unique sch
              && existsb (account_of uid) (accounts d)
      then (Err DuplicateEntry, d)
      else (Ok tt, set_accounts d (accounts d ++ [Accounts.mk uid b]))
  | SelectBalance uid =>
      (Ok (map Accounts.balance (filter (account_of uid) (accounts d))), d)
  | UpdateBalance b uid =>
      (Ok tt,
       set_accounts d
         (map (fun a => if account_of uid a
                        then Accounts.mk (Accounts.user_id a) b else a)
              (accounts d)))
  | InsertSession uid o =>
      if orphan (sessions_fk sch) uid d then (Err ForeignKeyFails, d)
      else if sessions_user_id_unique sch
              && existsb (session_of uid) (sessions d)
      then (Err DuplicateEntry, d)
      else (Ok tt, set_sessions d (sessions d ++ [Sessions.mk uid o now]))
  | SelectSessions uid => (Ok (filter (session_of uid) (sessions d)), d)
  | SelectSession uid o => (Ok (filter (session_is uid o) (sessions d)), d)
  | DeleteSessions uid =>
      (Ok tt,
       set_sessions d
         (filter (fun s => negb (session_of uid s)) (sessions d)))
  | DeleteSession uid o =>
      (Ok tt,
       set_sessions d
         (filter (fun s => negb (session_is uid o s)) (sessions d)))
  | DeleteSessionsBefore cutOff =>
      (Ok (List.length
             (filter (fun s => Sessions.login_timestamp s <? cutOff)
                     (sessions d))),
       set_sessions d
         (filter (fun s => negb (Sessions.login_timestamp s <? cutOff))
                 (sessions d)))
  end.

(** ** Handlers as programs

    An [async] handler is a tree of awaited statements.  [Await q k] awaits
    the promise of [query(q)] and goes on with [k]: on [Ok] with the rows,
    on [Err] at the nearest enclosing [catch].  [Throw] is a rejection that
    is travelling; at the top of a handler nothing catches it and Express
    gets no response from the handler. *)

Inductive prog (A : Type) : Type :=
| Ret (a : A)
| Throw (e : exn)
| Await {T : Type} (q : stmt T) (k : outcome T -> prog A).
Arguments Ret {A} a.
Arguments Throw {A} e.
Arguments Await {A T} q k.

(** [const x = await query(q); k x]: a rejection leaves the block. *)
Definition query {A T} (q : stmt T) (k : T -> prog A) : prog A :=
  Await q (fun r => match r with Ok x => k x | Err e => Throw e end).

(** [try { p } catch (error) { h error }] *)
Fixpoint try_catch {A} (p : prog A) (h : exn -> prog A) : prog A :=
  match p with
  | Ret a => Ret a
  | Throw e => h e
  | Await q k => Await q (fun r => try_catch (k r) h)
  end.

Notation "'let*' x ':=' 'await' q 'in' k" := (query q (fun x => k))
  (at level 10, x pattern, q at level 9, k at level 200).
Notation "'await' q ';;' k" := (query q (fun _ => k))
  (at level 10, q at level 9, k at level 200).

(** ** Running a handler

    [run sch now faults p d] runs [p] to its end against the store [d],
    one statement after the other and nothing in between.  [faults] says,
    statement by statement, whether the call to the store fails before it
    has any effect; past its end no call fails. *)
Fixpoint run {A} (sch : schema) (now : Z) (faults : list bool) (p : prog A)
    (d : db) : outcome A * db :=
  match p with
  | Ret a => (Ok a, d)
  | Throw e => (Err e, d)
  | Await q k =>
      match faults with
      | true :: fs => run sch now fs (k (Err StoreUnavailable)) d
      | _ => let (r, d') := exec sch now q d in run sch now (tl faults) (k r) d'
      end
  end.

(** ** JavaScript numbers and strings *)

(** [parseFloat(x)] for a number [x]: [x] is printed and read back, which
    returns [x] except that [-0] prints as ["0"]. *)
Definition parseFloat (x : float) : float :=
  if is_zero x then zero else x.

(** [Math.floor(x)] as an integer, for a finite [x]. *)
Definition Math_floor (x : float) : option Z :=
  match Prim2SF x with
  | S754_zero _ => Some 0
  | S754_finite s m e =>
      Some (Z.shiftl (if s then Z.neg m else Z.pos m) e)
  | _ => None
  end.

(** [n.toString()] for the integers and non-numbers [Math.floor] returns
    (decimal digits below 1e21, where JavaScript uses no exponent). *)
Definition toString (n : option Z) : string :=
  match n with
  | Some z => NilZero.string_of_int (Z.to_int z)
  | None => "NaN"
  end.

(** [generateOtp()], given the draw of [Math.random()]. *)
Definition generateOtp (random : float) : string :=
  toString (Math_floor (100000 + random * 900000)%float).

(** How old a session may get, in milliseconds: [10 * 60 * 1000]. *)
Definition tenMinutes : Z := 10 * 60 * 1000.

(** ** Responses *)

Variant body :=
| Message (message : string)     (* { message: ... } *)
| Otp (otp : string)             (* { otp: ... } *)
| Balance (balance : float).     (* { balance: ... } *)

(** [res.status(status).json(json)] *)
Record response := res { status : Z; json : body }.

(** ** The endpoints *)

Section Endpoints.

(** [bcrypt.hash(password, saltRounds)], which draws a salt of its own (here
    an argument), and [bcrypt.compare(password, hash)]. *)
Variable bcrypt_hash : string -> Z -> string -> string.
Variable bcrypt_compare : string -> string -> bool.

Definition encryptPassword (salt password : string) : string :=
  let saltRounds := 10 in
  bcrypt_hash password saltRounds salt.

(** [POST /users] *)
Definition register (salt username password : string) : prog response :=
  try_catch
    (let encryptedPassword := encryptPassword salt password in
     await (InsertUser username encryptedPassword) ;;
     let* rows := await (SelectUser username) in
     match rows with
     | user :: _ =>
         await (InsertAccount (Users.id user) 0%float) ;;
         Ret (res 201 (Message "User created"))
     | [] => Throw TypeError
     end)
    (fun _ => Ret (res 500 (Message "Failed to create user"))).

(** [POST /login]; [random] is the draw of [Math.random()]. *)
Definition login (random : float) (username password : string)
    : prog response :=
  try_catch
    (let* rows := await (SelectUser username) in
     match rows with
     | [] => Ret (res 401 (Message "Login failed."))
     | user :: _ =>
         let passwordMatch := bcrypt_compare password (Users.password user) in
         if passwordMatch then
           let* existingSession := await (SelectSessions (Users.id user)) in
           let add_session :=
             let otp := generateOtp random in
             await (InsertSession (Users.id user) otp) ;;
             Ret (res 200 (Otp otp)) in
           match existingSession with
           | _ :: _ => await (DeleteSessions (Users.id user)) ;; add_session
           | [] => add_session
           end
         else Ret (res 401 (Message "Login failed."))
     end)
    (fun _ => Ret (res 500 (Message "An error occurred during login."))).

(** [PUT /update-password] *)
Definition updatePassword (salt username password newPassword : string)
    : prog response :=
  let* rows := await (SelectUser username) in
  match rows with
  | [] => Ret (res 404 (Message "User not found."))
  | user :: _ =>
      let passwordMatch := bcrypt_compare password (Users.password user) in
      if negb passwordMatch then Ret (res 401 (Message "Invalid password"))
      else
        let encryptedPassword := encryptPassword salt newPassword in
        try_catch
          (await (UpdatePassword encryptedPassword (Users.id user)) ;;
           Ret (res 200 (Message "Password updated")))
          (fun _ => Ret (res 500 (Message "Failed to update password")))
  end.

(** [DELETE /delete-user] *)
Definition deleteUser (username password otp : string) : prog response :=
  let* rows := await (SelectUser username) in
  match rows with
  | [] => Ret (res 404 (Message "User not found"))
  | user :: _ =>
      let passwordMatch := bcrypt_compare password (Users.password user) in
      if negb passwordMatch then Ret (res 401 (Message "Invalid password"))
      else
        await (DeleteSession (Users.id user) otp) ;;
        try_catch
          (await (DeleteUser username) ;;
           Ret (res 200 (Message "User deleted")))
          (fun _ => Ret (res 500 (Message "Failed to delete user")))
  end.

(** [DELETE /logout] *)
Definition logout (username otp : string) : prog response :=
  let* rows := await (SelectUser username) in
  match rows with
  | [] => Ret (res 404 (Message "User not found or already logged out"))
  | user :: _ =>
      try_catch
        (await (DeleteSession (Users.id user) otp) ;;
         Ret (res 200 (Message "Logout successful")))
        (fun _ => Ret (res 500 (Message "Failed to log out")))
  end.

(** [!rows] for the array a query resolves to: an array is an object, and
    every object is truthy, the empty array too. *)
Definition falsy {R} (rows : list R) : bool := false.

(** [POST /me/account] *)
Definition getBalance (username otp : string) : prog response :=
  let* rows := await (SelectUser username) in
  match rows with
  | [] => Ret (res 404 (Message "User not found or already logged out"))
  | user :: _ =>
      let* validSession := await (SelectSession (Users.id user) otp) in
      if falsy validSession then Ret (res 404 (Message "Failed to get balance"))
      else
        try_catch
          (let* result := await (SelectBalance (Users.id user)) in
           match result with
           | balance :: _ => Ret (res 200 (Balance balance))
           | [] => Throw TypeError
           end)
          (fun _ => Ret (res 404 (Message "Failed to get balance")))
  end.

(** The body shared by the two transaction endpoints, which differ in the
    operator only: [balance + parseFloat(amount)] for a deposit,
    [balance - parseFloat(amount)] for a withdrawal. *)
Definition transaction (op : float -> float -> float)
    (username otp : string) (amount : float) : prog response :=
  let* rows := await (SelectUser username) in
  match rows with
  | [] => Ret (res 404 (Message "User not found or already logged out"))
  | user :: _ =>
      let* validSessions := await (SelectSession (Users.id user) otp) in
      if (List.length validSessions =? 0)%nat
      then Ret (res 404 (Message "Invalid session or OTP"))
      else
        try_catch
          (let* result := await (SelectBalance (Users.id user)) in
           match result with
           | row_balance :: _ =>
               let balance := parseFloat row_balance in
               let newBalance := op balance (parseFloat amount) in
               await (UpdateBalance newBalance (Users.id user)) ;;
               Ret (res 200 (Balance newBalance))
           | [] => Throw TypeError
           end)
          (fun _ => Ret (res 500 (Message "Failed to update balance")))
  end.

(** [POST /me/account/transaction/deposit] *)
Definition deposit := transaction PrimFloat.add.

(** [POST /me/account/transaction/withdraw] *)
Definition withdraw := transaction PrimFloat.sub.

(** One pass of [clearSessions]; [date] is [new Date().getTime()].  The
    [finally] block only schedules the next pass. *)
Definition clearSessions (date : Z) : prog unit :=
  let cutOff := date - tenMinutes in
  try_catch
    (let* affectedRows := await (DeleteSessionsBefore cutOff) in Ret tt)
    (fun _ => Ret tt).

(** ** Requests

    The body of a request, field by field: names, passwords and codes are
    strings, an amount is a number.  With a request come the draws its
    handler makes: the salt of [bcrypt.hash], the value of [Math.random()]. *)

Inductive request :=
| POST_users (salt username password : string)
| POST_login (random : float) (username password : string)
| PUT_update_password (salt username password newPassword : string)
| DELETE_delete_user (username password otp : string)
| DELETE_logout (username otp : string)
| POST_me_account (username otp : string)
| POST_deposit (username otp : string) (amount : float)
| POST_withdraw (username otp : string) (amount : float).

Definition handle (r : request) : prog response :=
  match r with
  | POST_users salt u p => register salt u p
  | POST_login random u p => login random u p
  | PUT_update_password salt u p p' => updatePassword salt u p p'
  | DELETE_delete_user u p o => deleteUser u p o
  | DELETE_logout u o => logout u o
  | POST_me_account u o => getBalance u o
  | POST_deposit u o a => deposit u o a
  | POST_withdraw u o a => withdraw u o a
  end.

(** What happens to the store, one thing after the other: a request is
    served, or the timer fires and a pass of [clearSessions] runs. *)
Inductive event :=
| Request (now : Z) (faults : list bool) (r : request)
| Timer (now : Z) (faults : list bool).

Definition after (sch : schema) (e : event) (d : db) : db :=
  match e with
  | Request now faults r => snd (run sch now faults (handle r) d)
  | Timer now faults => snd (run sch now faults (clearSessions now) d)
  end.

Definition serve (sch : schema) (es : list event) (d : db) : db :=
  fold_left (fun d e => after sch e d) es d.

End Endpoints.

(** ** A stand-in for bcrypt

    [bcrypt] is a library the handlers call; the properties below hold for
    any hash and any comparison.  Where a run has to be evaluated, this pair
    stands in: the hash is the salt followed by the password, and a password
    matches a hash that ends with it. *)

Definition salted_hash (password : string) (rounds : Z) (salt : string)
    : string :=
  String.append salt password.

Definition salted_compare (password hash : string) : bool :=
  String.eqb
    (substring (String.length hash - String.length password)
               (String.length password) hash)
    password.

(** ** Overlapping requests

    Node runs one handler until its next [await]; the statement it awaits
    is executed by the store as one unit, and meanwhile another handler may
    be resumed.  A pool of handlers therefore advances one statement of one
    handler at a time, in the order a schedule gives. *)

(** One statement of [p], if [p] is waiting for one. *)
Definition advance {A} (sch : schema) (now : Z) (p : prog A) (d : db)
    : prog A * db :=
  match p with
  | Await q k => let (r, d') := exec sch now q d in (k r, d')
  | _ => (p, d)
  end.

Fixpoint replace_nth {A} (i : nat) (x : A) (l : list A) : list A :=
  match l, i with
  | [], _ => []
  | _ :: l', O => x :: l'
  | y :: l', S i' => y :: replace_nth i' x l'
  end.

(** Handler number [i] of the pool gets its turn. *)
Definition turn {A} (sch : schema) (now : Z) (i : nat)
    (c : list (prog A) * db) : list (prog A) * db :=
  match nth_error (fst c) i with
  | Some p =>
      let (p', d') := advance sch now p (snd c) in
      (replace_nth i p' (fst c), d')
  | None => c
  end.

Definition interleave {A} (sch : schema) (now : Z) (schedule : list nat)
    (c : list (prog A) * db) : list (prog A) * db :=
  fold_left (fun c i => turn sch now i c) schedule c.

(** What a handler has answered, once it has. *)
Definition answer {A} (p : prog A) : option (outcome A) :=
  match p with
  | Ret a => Some (Ok a)
  | Throw e => Some (Err e)
  | Await _ _ => None
  end.

(** The number of statements [p] awaits when it runs from [d] and no call
    fails, and what is left of [p] after them: its answer. *)
Fixpoint steps {A} (sch : schema) (now : Z) (p : prog A) (d : db) : nat :=
  match p with
  | Await q k =>
      S (steps sch now (k (fst (exec sch now q d))) (snd (exec sch now q d)))
  | _ => O
  end.

Fixpoint settle {A} (sch : schema) (now : Z) (p : prog A) (d : db) : prog A :=
  match p with
  | Await q k =>
      settle sch now (k (fst (exec sch now q d))) (snd (exec sch now q d))
  | _ => p
  end.

(** The schedule that gives handler [i] of the pool all its turns, then
    handler [i + 1] all of its, and so on: no two handlers overlap. *)
Fixpoint serial {A} (sch : schema) (now : Z) (i : nat) (ps : list (prog A))
    (d : db) : list nat :=
  match ps with
  | [] => []
  | p :: ps' =>
      repeat i (steps sch now p d)
      ++ serial sch now (S i) ps' (snd (run sch now [] p d))
  end.

(** The store after the handlers of a pool have run to their end one after
    the other. *)
Fixpoint one_by_one {A} (sch : schema) (now : Z) (ps : list (prog A))
    (d : db) : db :=
  match ps with
  | [] => d
  | p :: ps' => one_by_one sch now ps' (snd (run sch now [] p d))
  end.

(** ** Reading the store *)

(** The user a handler finds under a name: [const [user] = rows]. *)
Definition find_user (u : string) (d : db) : option Users.row :=
  hd_error (filter (named u) (users d)).

(** The balance a handler reads for a user: [result[0].balance]. *)
Definition balance_of (uid : Z) (d : db) : option float :=
  hd_error (map Accounts.balance (filter (account_of uid) (accounts d))).

(** The session rows of a user. *)
Definition sessions_of (uid : Z) (d : db) : list Sessions.row :=
  filter (session_of uid) (sessions d).

(** [validate(userId, otp)] of the spec: the test the transaction endpoints
    make, [validSessions.length === 0] being false. *)
Definition validate (uid : Z) (o : string) (d : db) : bool :=
  negb (List.length (filter (session_is uid o) (sessions d)) =? 0)%nat.

(** No user has two session rows. *)
Definition single_session (d : db) : Prop :=
  forall uid, (List.length (sessions_of uid d) <= 1)%nat.

(** ** Reasoning about a handler under every fault

    [wp sch now p Q d]: whatever calls to the store fail, running [p] from
    [d] ends with an outcome and a store that satisfy [Q]. *)
Fixpoint wp {A} (sch : schema) (now : Z) (p : prog A)
    (Q : outcome A -> db -> Prop) (d : db) : Prop :=
  match p with
  | Ret a => Q (Ok a) d
  | Throw e => Q (Err e) d
  | Await q k =>
      wp sch now (k (Err StoreUnavailable)) Q d
      /\ wp sch now (k (fst (exec sch now q d))) Q (snd (exec sch now q d))
  end.

(** One step of a proof of [wp]: split, or look at what a query returned. *)
Ltac wp_step :=
  match goal with
  | |- _ /\ _ => split
  | |- context [match filter ?f ?l with _ => _ end] =>
      destruct (filter f l) eqn:?
  | |- context [match map ?f ?l with _ => _ end] => destruct (map f l) eqn:?
  | |- context [if ?b then _ else _] => destruct b eqn:?
  end; simpl.

(** ** A transaction in closed form *)

(** The store after [UPDATE accounts SET balance = b WHERE user_id = uid]. *)
Definition credit (uid : Z) (b : float) (d : db) : db :=
  set_accounts d
    (map (fun a => if account_of uid a
                   then Accounts.mk (Accounts.user_id a) b else a)
         (accounts d)).

(** What [transaction] comes to, read off the store: statement number [i]
    of the run fails when [nth i faults false] says so.  The first two
    statements stand outside the [try] block. *)
Definition transaction_result (op : float -> float -> float)
    (u o : string) (a : float) (faults : list bool) (d : db)
    : outcome response * db :=
  if nth 0 faults false then (Err StoreUnavailable, d) else
  match find_user u d with
  | None =>
      (Ok (res 404 (Message "User not found or already logged out")), d)
  | Some user =>
      if nth 1 faults false then (Err StoreUnavailable, d) else
      if negb (validate (Users.id user) o d)
      then (Ok (res 404 (Message "Invalid session or OTP")), d) else
      if nth 2 faults false
      then (Ok (res 500 (Message "Failed to update balance")), d) else
      match balance_of (Users.id user) d with
      | None => (Ok (res 500 (Message "Failed to update balance")), d)
      | Some b =>
          let newBalance := op (parseFloat b) (parseFloat a) in
          if nth 3 faults false
          then (Ok (res 500 (Message "Failed to update balance")), d)
          else (Ok (res 200 (Balance newBalance)),
                credit (Users.id user) newBalance d)
      end
  end.

(** What a transaction on the name [u] can tell of a store: the id of the
    user found, the user and the code of every session row, in order, and
    the accounts.  Not the passwords, and not the time of a login. *)
Definition session_key (s : Sessions.row) : Z * string :=
  (Sessions.user_id s, Sessions.otp s).

Definition alike (u : string) (d1 d2 : db) : Prop :=
  option_map Users.id (find_user u d1) = option_map Users.id (find_user u d2)
  /\ map session_key (sessions d1) = map session_key (sessions d2)
  /\ accounts d1 = accounts d2.

(** The session table with every [login_timestamp] replaced. *)
Definition restamp (f : Sessions.row -> Z) (d : db) : db :=
  set_sessions d
    (map (fun s => Sessions.mk (Sessions.user_id s) (Sessions.otp s) (f s))
         (sessions d)).

(** [UPDATE users SET password = hash WHERE id = uid] on a row. *)
Definition repassword (hash : string) (uid : Z) (r : Users.row) : Users.row :=
  if Users.id r =? uid then Users.mk (Users.id r) (Users.username r) hash
  else r.

(** ** Integers as JavaScript numbers

    A JavaScript number is a binary64 float.  [number z] is the number an
    integer literal denotes: [z] rounded to 53 bits, which below 2^53 is
    [z] itself. *)

Definition spec_number (z : Z) : spec_float :=
  binary_normalize prec emax z 0 false.

Definition number (z : Z) : float := SF2Prim (spec_number z).

(** [p] shifted left by [k] bits, its length in bits, and [p] shifted so
    that it fills the 53 bits of a mantissa. *)
Definition shift_left (p : positive) (k : nat) : positive := Nat.iter k xO p.
Definition bit_length (p : positive) : Z := Zpos (digits2_pos p).
Definition mantissa (p : positive) : positive :=
  shift_left p (Z.to_nat (53 - bit_length p)).

(** The binary64 float of value [p] (negated when [s]), for [p] below 2^53. *)
Definition canonical (s : bool) (p : positive) : spec_float :=
  S754_finite s (mantissa p) (bit_length p - 53).

Definition signed (s : bool) (p : positive) : Z := cond_Zopp s (Zpos p).

(** ** A deposit of 1, await by await

    What is left of [deposit u o 1] after each of its awaits, for the user
    [user] it finds: the stages overlapping deposits are in. *)

Variant stage :=
| Start                (* nothing awaited yet *)
| Found                (* the user is looked up *)
| Valid                (* the session is checked *)
| Read (r : Z)         (* the balance [r] is read *)
| Written (r : Z).     (* [r + 1] is written and answered *)

Section Stages.

Variables (u o : string) (user : Users.row).

Definition writing (r : float) : prog response :=
  try_catch
    (let newBalance := (parseFloat r + parseFloat 1)%float in
     await (UpdateBalance newBalance (Users.id user)) ;;
     Ret (res 200 (Balance newBalance)))
    (fun _ => Ret (res 500 (Message "Failed to update balance"))).

Definition reading : prog response :=
  try_catch
    (let* result := await (SelectBalance (Users.id user)) in
     match result with
     | row_balance :: _ =>
         let balance := parseFloat row_balance in
         let newBalance := (balance + parseFloat 1)%float in
         await (UpdateBalance newBalance (Users.id user)) ;;
         Ret (res 200 (Balance newBalance))
     | [] => Throw TypeError
     end)
    (fun _ => Ret (res 500 (Message "Failed to update balance"))).

Definition checking : prog response :=
  let* validSessions := await (SelectSession (Users.id user) o) in
  if (List.length validSessions =? 0)%nat
  then Ret (res 404 (Message "Invalid session or OTP"))
  else reading.

Definition at_stage (s : stage) : prog response :=
  match s with
  | Start => deposit u o 1%float
  | Found => checking
  | Valid => reading
  | Read r => writing (number r)
  | Written r => Ret (res 200 (Balance (number (r + 1))))
  end.

(** The stage after a turn, and the balance after it, from the balance
    [m] before it. *)
Definition next (s : stage) (m : Z) : stage * Z :=
  match s with
  | Start => (Found, m)
  | Found => (Valid, m)
  | Valid => (Read m, m)
  | Read r => (Written r, r + 1)
  | Written r => (Written r, m)
  end.

(** A store in which the user is found, the code validates and the balance
    is the integer [m]. *)
Definition holds (d : db) (m : Z) : Prop :=
  find_user u d = Some user
  /\ validate (Users.id user) o d = true
  /\ balance_of (Users.id user) d = Some (number m).

End Stages.

Definition small (s : stage) : Prop :=
  match s with
  | Read r | Written r => 0 <= r /\ r + 1 < 2 ^ 53
  | _ => True
  end.

Definition is_written (s : stage) : bool :=
  match s with Written _ => true | _ => false end.

(** How many deposits of a pool have written. *)
Definition written (l : list stage) : Z :=
  Z.of_nat (List.length (filter is_written l)).

Definition within (w : Z) (s : stage) : Prop :=
  match s with
  | Read r => 0 <= r <= w
  | Written r => 0 <= r < w
  | _ => True
  end.

(** The balance [m] counts no more deposits than have written, and at
    least one once one has; no deposit holds a balance read that is larger
    than that. *)
Definition counted (l : list stage) (m : Z) : Prop :=
  0 <= m <= written l
  /\ (0 < written l -> 1 <= m)
  /\ Forall (within (written l)) l.

Definition answered {A} (p : prog A) : bool :=
  match answer p with Some _ => true | None => false end.

(** ** Scenarios

    Stores reached from the empty one by serving requests, used where a run
    is evaluated.  The draw 0.5 of [Math.random()] gives the code 550000;
    0x1.999999999999ap-4 is the number 0.1 and 0x1.999999999999ap-3 is 0.2. *)

Definition alice_registered : db :=
  serve salted_hash salted_compare spec_schema
    [Request 0 [] (POST_users "salt" "alice" "pw1")] empty_db.

Definition alice_logged_in : db :=
  serve salted_hash salted_compare spec_schema
    [Request 1000 [] (POST_login 0.5%float "alice" "pw1")] alice_registered.

Definition alice_logged_out : db :=
  serve salted_hash salted_compare spec_schema
    [Request 2000 [] (DELETE_logout "alice" "550000")] alice_logged_in.

Definition alice_logged_in_again : db :=
  serve salted_hash salted_compare spec_schema
    [Request 2000 [] (POST_login 0.5%float "alice" "pw1")] alice_logged_in.

Definition alice_has_a_tenth : db :=
  serve salted_hash salted_compare spec_schema
    [Request 2000 [] (POST_deposit "alice" "550000" 0x1.999999999999ap-4%float)]
    alice_logged_in.

Definition alice_after_round_trip : db :=
  serve salted_hash salted_compare spec_schema
    [Request 3000 [] (POST_deposit "alice" "550000" 0x1.999999999999ap-3%float);
     Request 4000 []
       (POST_withdraw "alice" "550000" 0x1.999999999999ap-3%float)]
    alice_has_a_tenth.

(** Two deposits of 1 by alice, both under way. *)
Definition two_deposits : list (prog response) :=
  [deposit "alice" "550000" 1%float; deposit "alice" "550000" 1%float].

(** * Properties *)

(** ** Lists and records *)

Lemma filter_all {A} (f : A -> bool) (l : list A) :
  (forall x, In x l -> f x = true) -> filter f l = l.
Proof.
  induction l as [|a l IH]; simpl; intros H; [reflexivity|].
  rewrite (H a (or_introl eq_refl)). f_equal. apply IH.
  intros x Hx. apply H. now right.
Qed.

Lemma filter_filter {A} (f g : A -> bool) (l : list A) :
  filter f (filter g l) = filter (fun x => g x && f x) l.
Proof.
  induction l as [|a l IH]; simpl; [reflexivity|].
  destruct (g a); simpl; [destruct (f a)|]; now rewrite IH.
Qed.

Lemma filter_none {A} (f : A -> bool) (l : list A) :
  filter f l = [] -> forall x, In x l -> f x = false.
Proof.
  induction l as [|a l IH]; simpl; intros H x Hx; [easy|].
  destruct (f a) eqn:E; [discriminate|]. destruct Hx as [<-|Hx]; auto.
Qed.

Lemma filter_nothing {A} (f : A -> bool) (l : list A) :
  (forall x, In x l -> f x = false) -> filter f l = [].
Proof.
  induction l as [|a l IH]; simpl; intros H; [reflexivity|].
  rewrite (H a (or_introl eq_refl)). apply IH. intros x Hx. apply H. now right.
Qed.

Lemma filter_map_swap {A B} (f : A -> B) (g : B -> bool) (l : list A) :
  filter g (map f l) = map f (filter (fun x => g (f x)) l).
Proof.
  induction l as [|a l IH]; simpl; [reflexivity|].
  destruct (g (f a)); simpl; now rewrite IH.
Qed.

Lemma length_filter_le {A} (f g : A -> bool) (l : list A) :
  (List.length (filter f (filter g l)) <= List.length (filter f l))%nat.
Proof.
  induction l as [|a l IH]; simpl; [lia|].
  destruct (g a), (f a) eqn:E; simpl; rewrite ?E; simpl; lia.
Qed.

Lemma existsb_filter_nil {A} (f : A -> bool) (l : list A) :
  existsb f l = false <-> filter f l = [].
Proof.
  induction l as [|a l IH]; simpl; [easy|].
  destruct (f a); simpl; [easy|exact IH].
Qed.

Lemma set_sessions_same d : set_sessions d (sessions d) = d.
Proof. now destruct d. Qed.

(** ** Integers are exact in binary64

    Below 2^53 the sum and the difference of two integers are computed
    without rounding.  The proof follows [SFadd]: both mantissas are
    aligned on the smaller exponent, added as integers, and the sum is
    normalised, which only shifts it. *)

Lemma iter_pos_nat {A} (f : A -> A) n : forall x,
  iter_pos f n x = Nat.iter (Pos.to_nat n) f x.
Proof.
  induction n as [n IH|n IH|]; intros x.
  - change (iter_pos f n~1 x) with (iter_pos f n (iter_pos f n (f x))).
    rewrite !IH, Pos2Nat.inj_xI.
    replace (S (2 * Pos.to_nat n)) with (Pos.to_nat n + (Pos.to_nat n + 1))%nat
      by lia.
    now rewrite !Nat.iter_add.
  - change (iter_pos f n~0 x) with (iter_pos f n (iter_pos f n x)).
    rewrite !IH, Pos2Nat.inj_xO.
    replace (2 * Pos.to_nat n)%nat with (Pos.to_nat n + Pos.to_nat n)%nat
      by lia.
    now rewrite Nat.iter_add.
  - reflexivity.
Qed.

Lemma bit_length_pos p : 0 < bit_length p.
Proof. reflexivity. Qed.

Lemma bit_length_shift p k :
  bit_length (shift_left p k) = bit_length p + Z.of_nat k.
Proof.
  unfold bit_length, shift_left. induction k as [|k IH]; [simpl; lia|].
  rewrite Nat.iter_succ. simpl digits2_pos. rewrite Pos2Z.inj_succ, IH. lia.
Qed.

Lemma Zpos_shift p k : Zpos (shift_left p k) = Zpos p * 2 ^ Z.of_nat k.
Proof.
  unfold shift_left. induction k as [|k IH]; [simpl; lia|].
  rewrite Nat.iter_succ, Pos2Z.inj_xO, IH, Nat2Z.inj_succ, Z.pow_succ_r; lia.
Qed.

Lemma shift_shift p j k :
  shift_left (shift_left p j) k = shift_left p (k + j).
Proof. unfold shift_left. now rewrite Nat.iter_add. Qed.

(** Shifting right what was shifted left loses no bit. *)
Lemma shr_shift p k :
  Nat.iter k shr_1 (Build_shr_record (Zpos (shift_left p k)) false false)
  = Build_shr_record (Zpos p) false false.
Proof.
  induction k as [|k IH]; [reflexivity|].
  rewrite Nat.iter_succ_r. unfold shift_left. rewrite Nat.iter_succ.
  simpl shr_1. exact IH.
Qed.

Lemma bit_length_le p : forall n, 0 <= n -> Zpos p < 2 ^ n -> bit_length p <= n.
Proof.
  unfold bit_length.
  induction p as [p IH|p IH|]; intros n Hn H; simpl digits2_pos;
    rewrite ?Pos2Z.inj_succ;
    assert (n <> 0) by (intros ->; simpl in H; lia); [| |lia];
    (assert (Zpos p < 2 ^ (n - 1))
       by (replace n with (Z.succ (n - 1)) in H by lia;
           rewrite Z.pow_succ_r in H; lia));
    specialize (IH (n - 1)); lia.
Qed.

Lemma bit_length_mantissa p :
  bit_length p <= 53 -> bit_length (mantissa p) = 53.
Proof.
  intros H. unfold mantissa. rewrite bit_length_shift.
  pose proof (bit_length_pos p). lia.
Qed.

Lemma fexp_normal e : -1021 <= e -> fexp prec emax e = e - 53.
Proof. unfold fexp, SpecFloat.emin, prec, emax. lia. Qed.

Lemma round_aux_shift s p j :
  bit_length p <= 53 -> 53 <= bit_length p + Z.of_nat j ->
  binary_round_aux prec emax s (Zpos (shift_left p j)) (- Z.of_nat j) loc_Exact
  = canonical s p.
Proof.
  intros Hd Hj. pose proof (bit_length_pos p) as H0.
  unfold binary_round_aux, shr_fexp. unfold Zdigits2.
  fold (bit_length (shift_left p j)). rewrite bit_length_shift.
  rewrite fexp_normal by lia.
  replace (bit_length p + Z.of_nat j + - Z.of_nat j - 53 - - Z.of_nat j)
    with (bit_length p + Z.of_nat j - 53) by lia.
  assert (shr (shr_record_of_loc (Zpos (shift_left p j)) loc_Exact)
              (- Z.of_nat j) (bit_length p + Z.of_nat j - 53)
          = (Build_shr_record (Zpos (mantissa p)) false false,
             bit_length p - 53)) as ->.
  { unfold shr. cbn [shr_record_of_loc].
    destruct (bit_length p + Z.of_nat j - 53) as [|n|n] eqn:E; try lia.
    - f_equal; [|lia]. unfold mantissa. do 3 f_equal. lia.
    - rewrite iter_pos_nat. f_equal; [|lia].
      assert (j = (Pos.to_nat n + Z.to_nat (53 - bit_length p))%nat) as Hjn
        by lia.
      rewrite Hjn at 1. rewrite <- shift_shift. apply shr_shift. }
  cbn [shr_m loc_of_shr_record round_nearest_even].
  unfold Zdigits2. fold (bit_length (mantissa p)).
  rewrite bit_length_mantissa by assumption.
  rewrite fexp_normal by lia.
  replace (53 + (bit_length p - 53) - 53 - (bit_length p - 53)) with 0 by lia.
  cbn [shr shr_m shr_record_of_loc].
  assert ((bit_length p - 53 <=? emax - prec) = true) as ->
    by (apply Z.leb_le; unfold emax, prec; lia).
  reflexivity.
Qed.

Lemma binary_round_shift s p k :
  bit_length p <= 53 ->
  binary_round prec emax s (shift_left p k) (- Z.of_nat k) = canonical s p.
Proof.
  intros Hd. pose proof (bit_length_pos p) as H0.
  unfold binary_round. fold (bit_length (shift_left p k)).
  rewrite bit_length_shift. rewrite fexp_normal by lia.
  unfold shl_align.
  destruct (bit_length p + Z.of_nat k + - Z.of_nat k - 53 - - Z.of_nat k)
    as [|n|n] eqn:E.
  - apply round_aux_shift; lia.
  - apply round_aux_shift; lia.
  - rewrite Pos2Nat.inj_iter.
    fold (Nat.iter (Pos.to_nat n) xO (shift_left p k)).
    fold (shift_left (shift_left p k) (Pos.to_nat n)). rewrite shift_shift.
    replace (bit_length p + Z.of_nat k + - Z.of_nat k - 53)
      with (- Z.of_nat (Pos.to_nat n + k)) by lia.
    apply round_aux_shift; lia.
Qed.

Lemma spec_number_canonical z :
  Z.abs z < 2 ^ 53 ->
  spec_number z =
  match z with
  | Z0 => S754_zero false
  | Zpos p => canonical false p
  | Zneg p => canonical true p
  end.
Proof.
  intros H. unfold spec_number, binary_normalize.
  destruct z as [|p|p]; [reflexivity| |];
    apply (binary_round_shift _ p 0); apply bit_length_le; simpl in H; lia.
Qed.

Lemma valid_canonical s p :
  bit_length p <= 53 -> valid_binary (canonical s p) = true.
Proof.
  intros H. pose proof (bit_length_pos p).
  unfold canonical, valid_binary, bounded, canonical_mantissa.
  fold (bit_length (mantissa p)). rewrite bit_length_mantissa by assumption.
  rewrite fexp_normal by lia. apply andb_true_intro. split.
  - apply Z.eqb_eq. lia.
  - apply Z.leb_le. unfold emax, prec. lia.
Qed.

Lemma Prim2SF_number z : Z.abs z < 2 ^ 53 -> Prim2SF (number z) = spec_number z.
Proof.
  intros H. apply Prim2SF_SF2Prim. rewrite spec_number_canonical by assumption.
  destruct z as [|p|p]; [reflexivity| |];
    apply valid_canonical; apply bit_length_le; simpl in H; lia.
Qed.

Lemma shl_align_mantissa p ez :
  bit_length p <= 53 -> ez <= bit_length p - 53 ->
  fst (shl_align (mantissa p) (bit_length p - 53) ez)
  = shift_left p (Z.to_nat (- ez)).
Proof.
  intros Hd He. pose proof (bit_length_pos p). unfold shl_align.
  destruct (ez - (bit_length p - 53)) as [|n|n] eqn:E; try lia.
  - simpl fst. unfold mantissa. f_equal. lia.
  - simpl fst. rewrite Pos2Nat.inj_iter.
    fold (Nat.iter (Pos.to_nat n) xO (mantissa p)).
    fold (shift_left (mantissa p) (Pos.to_nat n)).
    unfold mantissa. rewrite shift_shift. f_equal. lia.
Qed.

Lemma normalize_scaled z k :
  Z.abs z < 2 ^ 53 ->
  binary_normalize prec emax (z * 2 ^ Z.of_nat k) (- Z.of_nat k) false
  = spec_number z.
Proof.
  intros H. rewrite spec_number_canonical by assumption.
  destruct z as [|p|p].
  - reflexivity.
  - rewrite <- Zpos_shift. simpl binary_normalize.
    apply binary_round_shift. apply bit_length_le; simpl in H; lia.
  - replace (Z.neg p * 2 ^ Z.of_nat k) with (Z.neg (shift_left p k))
      by (rewrite <- !Pos2Z.opp_pos, Zpos_shift; lia).
    simpl binary_normalize.
    apply binary_round_shift. apply bit_length_le; simpl in H; lia.
Qed.

Lemma SFadd_canonical sx px sy py :
  Zpos px < 2 ^ 53 -> Zpos py < 2 ^ 53 ->
  Z.abs (signed sx px + signed sy py) < 2 ^ 53 ->
  SFadd prec emax (canonical sx px) (canonical sy py)
  = spec_number (signed sx px + signed sy py).
Proof.
  intros Hx Hy Hz.
  pose proof (bit_length_le px 53 ltac:(lia) Hx) as Hdx.
  pose proof (bit_length_le py 53 ltac:(lia) Hy) as Hdy.
  pose proof (bit_length_pos px). pose proof (bit_length_pos py).
  unfold canonical, SFadd.
  set (ez := Z.min (bit_length px - 53) (bit_length py - 53)).
  rewrite !shl_align_mantissa by (unfold ez; lia).
  rewrite !Zpos_shift.
  replace ez with (- Z.of_nat (Z.to_nat (- ez))) at 3 by (unfold ez; lia).
  rewrite <- normalize_scaled with (k := Z.to_nat (- ez)) by assumption.
  f_equal. unfold signed, cond_Zopp.
  generalize (2 ^ Z.of_nat (Z.to_nat (- ez))). intros t.
  destruct sx, sy; ring.
Qed.

Lemma SFsub_canonical sx px sy py :
  Zpos px < 2 ^ 53 -> Zpos py < 2 ^ 53 ->
  Z.abs (signed sx px - signed sy py) < 2 ^ 53 ->
  SFsub prec emax (canonical sx px) (canonical sy py)
  = spec_number (signed sx px - signed sy py).
Proof.
  intros Hx Hy Hz.
  pose proof (bit_length_le px 53 ltac:(lia) Hx) as Hdx.
  pose proof (bit_length_le py 53 ltac:(lia) Hy) as Hdy.
  pose proof (bit_length_pos px). pose proof (bit_length_pos py).
  unfold canonical, SFsub.
  set (ez := Z.min (bit_length px - 53) (bit_length py - 53)).
  rewrite !shl_align_mantissa by (unfold ez; lia).
  rewrite !Zpos_shift.
  replace ez with (- Z.of_nat (Z.to_nat (- ez))) at 3 by (unfold ez; lia).
  rewrite <- normalize_scaled with (k := Z.to_nat (- ez)) by assumption.
  f_equal. unfold signed, cond_Zopp.
  generalize (2 ^ Z.of_nat (Z.to_nat (- ez))). intros t.
  destruct sx, sy; ring.
Qed.

Lemma SFadd_number x y :
  Z.abs x < 2 ^ 53 -> Z.abs y < 2 ^ 53 -> Z.abs (x + y) < 2 ^ 53 ->
  SFadd prec emax (spec_number x) (spec_number y) = spec_number (x + y).
Proof.
  intros Hx Hy Hz.
  rewrite (spec_number_canonical x), (spec_number_canonical y) by assumption.
  destruct x as [|p|p], y as [|q|q]; try reflexivity;
    try (symmetry; apply spec_number_canonical; assumption).
  - apply (SFadd_canonical false p false q); simpl in *; lia.
  - apply (SFadd_canonical false p true q); simpl in *; lia.
  - apply (SFadd_canonical true p false q); simpl in *; lia.
  - apply (SFadd_canonical true p true q); simpl in *; lia.
Qed.

Lemma SFsub_number x y :
  Z.abs x < 2 ^ 53 -> Z.abs y < 2 ^ 53 -> Z.abs (x - y) < 2 ^ 53 ->
  SFsub prec emax (spec_number x) (spec_number y) = spec_number (x - y).
Proof.
  intros Hx Hy Hz.
  rewrite (spec_number_canonical x), (spec_number_canonical y) by assumption.
  destruct x as [|p|p], y as [|q|q]; try reflexivity;
    try (symmetry; apply spec_number_canonical; assumption).
  - apply (SFsub_canonical false p false q); simpl in *; lia.
  - apply (SFsub_canonical false p true q); simpl in *; lia.
  - apply (SFsub_canonical true p false q); simpl in *; lia.
  - apply (SFsub_canonical true p true q); simpl in *; lia.
Qed.

(** [x + y] in JavaScript, for integers below 2^53 whose sum is. *)
Lemma add_number x y :
  Z.abs x < 2 ^ 53 -> Z.abs y < 2 ^ 53 -> Z.abs (x + y) < 2 ^ 53 ->
  (number x + number y)%float = number (x + y).
Proof.
  intros Hx Hy Hz. apply Prim2SF_inj.
  rewrite add_spec, !Prim2SF_number by assumption.
  now apply SFadd_number.
Qed.

(** [x - y] in JavaScript, for integers below 2^53 whose difference is. *)
Lemma sub_number x y :
  Z.abs x < 2 ^ 53 -> Z.abs y < 2 ^ 53 -> Z.abs (x - y) < 2 ^ 53 ->
  (number x - number y)%float = number (x - y).
Proof.
  intros Hx Hy Hz. apply Prim2SF_inj.
  rewrite sub_spec, !Prim2SF_number by assumption.
  now apply SFsub_number.
Qed.

(** [parseFloat] returns such a number as it is. *)
Lemma parseFloat_number z :
  Z.abs z < 2 ^ 53 -> parseFloat (number z) = number z.
Proof.
  intros H. unfold parseFloat, is_zero.
  rewrite FloatAxioms.eqb_spec, Prim2SF_number, spec_number_canonical
    by assumption.
  destruct z as [|p|p]; reflexivity.
Qed.

(** ** Running *)

Lemma wp_run {A} sch now (p : prog A) Q :
  forall d faults, wp sch now p Q d ->
  Q (fst (run sch now faults p d)) (snd (run sch now faults p d)).
Proof.
  induction p as [a|e|T q k IH]; simpl; intros d faults H; auto.
  destruct H as [Hf Hs].
  destruct faults as [|[|] fs]; simpl.
  - destruct (exec sch now q d) as [r d']. now apply IH.
  - now apply IH.
  - destruct (exec sch now q d) as [r d']. now apply IH.
Qed.

(** A handler run to its end is the handler advanced by one statement and
    then run to its end: [run] and [interleave] take the same steps. *)
Lemma run_advance {A} sch now (p : prog A) d :
  run sch now [] p d
  = run sch now [] (fst (advance sch now p d)) (snd (advance sch now p d)).
Proof.
  destruct p as [a|e|T q k]; simpl; try reflexivity.
  now destruct (exec sch now q d).
Qed.

(** *** A schedule without overlap *)

Lemma nth_error_middle {A} (l1 : list A) x l2 :
  nth_error (l1 ++ x :: l2) (List.length l1) = Some x.
Proof. induction l1; simpl; auto. Qed.

Lemma replace_nth_middle {A} (l1 : list A) x y l2 :
  replace_nth (List.length l1) y (l1 ++ x :: l2) = l1 ++ y :: l2.
Proof. induction l1; simpl; [reflexivity|]. now f_equal. Qed.

Lemma interleave_app {A} sch now s1 s2 (c : list (prog A) * db) :
  interleave sch now (s1 ++ s2) c
  = interleave sch now s2 (interleave sch now s1 c).
Proof. unfold interleave. apply fold_left_app. Qed.

(** Given all its turns in a row, a handler of the pool ends as [run] says. *)
Lemma interleave_thread {A} sch now (done rest : list (prog A)) :
  forall p d,
  interleave sch now (repeat (List.length done) (steps sch now p d))
    (done ++ p :: rest, d)
  = (done ++ settle sch now p d :: rest, snd (run sch now [] p d)).
Proof.
  induction p as [a|e|T q k IH]; intros d; try reflexivity.
  simpl steps. simpl repeat. simpl settle. simpl run.
  unfold interleave. simpl fold_left. fold (@interleave A sch now).
  unfold turn at 2. simpl fst. simpl snd.
  rewrite nth_error_middle. simpl advance.
  destruct (exec sch now q d) as [r d'] eqn:E. simpl fst. simpl snd.
  rewrite replace_nth_middle. apply IH.
Qed.

(** Under the serial schedule the pool leaves the store that running its
    handlers one by one leaves. *)
Lemma interleave_serial {A} sch now : forall (rest done : list (prog A)) d,
  snd (interleave sch now (serial sch now (List.length done) rest d)
         (done ++ rest, d))
  = one_by_one sch now rest d.
Proof.
  induction rest as [|p rest IH]; intros done d; [reflexivity|].
  simpl serial. rewrite interleave_app, interleave_thread. simpl one_by_one.
  specialize (IH (done ++ [settle sch now p d]) (snd (run sch now [] p d))).
  rewrite length_app in IH. simpl in IH. rewrite Nat.add_1_r in IH.
  rewrite <- app_assoc in IH. exact IH.
Qed.

Lemma transaction_run sch now faults op u o a d :
  run sch now faults (transaction op u o a) d
  = transaction_result op u o a faults d.
Proof.
  unfold transaction, transaction_result, find_user, validate, balance_of.
  destruct faults as [|[|] [|[|] [|[|] [|[|] fs]]]]; simpl;
    try reflexivity;
    (destruct (filter (named u) (users d)) as [|user rows]; simpl;
     [reflexivity|]);
    try reflexivity;
    (destruct (List.length _ =? 0)%nat; simpl; [reflexivity|]);
    try reflexivity;
    (destruct (map Accounts.balance _); reflexivity).
Qed.

(** ** Looking a user up *)

Lemma find_user_In u d user :
  find_user u d = Some user -> In user (users d).
Proof.
  unfold find_user. intros H.
  assert (In user (filter (named u) (users d))) as Hin.
  { destruct (filter _ _); [discriminate|]. injection H as ->. now left. }
  now apply filter_In in Hin.
Qed.

Lemma find_user_has u d user :
  find_user u d = Some user -> has_user (Users.id user) d = true.
Proof.
  intros H%find_user_In. unfold has_user. apply existsb_exists.
  exists user. split; [assumption|apply Z.eqb_refl].
Qed.

Lemma find_user_repassword h uid u d :
  find_user u (set_users d (map (repassword h uid) (users d)))
  = option_map (repassword h uid) (find_user u d).
Proof.
  unfold find_user. simpl. rewrite filter_map_swap.
  rewrite (filter_ext _ (named u)).
  - now destruct (filter (named u) (users d)).
  - intros r. unfold repassword, named. now destruct (Users.id r =? uid).
Qed.

Lemma validate_false uid o d :
  validate uid o d = false -> filter (session_is uid o) (sessions d) = [].
Proof.
  unfold validate. destruct (filter _ _); [reflexivity|discriminate].
Qed.

(** ** Stores a transaction cannot tell apart *)

Lemma alike_refl u d : alike u d d.
Proof. now repeat split. Qed.

Lemma alike_valid uid o l1 l2 :
  map session_key l1 = map session_key l2 ->
  List.length (filter (session_is uid o) l1)
  = List.length (filter (session_is uid o) l2).
Proof.
  revert l2. induction l1 as [|s1 l1 IH]; intros [|s2 l2]; simpl;
    try discriminate; [reflexivity|].
  unfold session_key at 1 3. intros H. injection H as Hid Hotp Hl.
  specialize (IH _ Hl).
  assert (session_is uid o s1 = session_is uid o s2) as ->
    by (unfold session_is; now rewrite Hid, Hotp).
  destruct (session_is uid o s2); simpl; now rewrite IH.
Qed.

Lemma transaction_alike sch now1 now2 faults op u o a d1 d2 :
  alike u d1 d2 ->
  fst (run sch now1 faults (transaction op u o a) d1)
  = fst (run sch now2 faults (transaction op u o a) d2).
Proof.
  intros (Hu & Hs & Ha). rewrite !transaction_run. unfold transaction_result.
  destruct (nth 0 faults false); [reflexivity|].
  destruct (find_user u d1) as [user1|], (find_user u d2) as [user2|];
    try discriminate; [|reflexivity].
  injection Hu as Hu. destruct (nth 1 faults false); [reflexivity|].
  unfold validate, balance_of.
  rewrite (alike_valid _ o _ _ Hs), Hu, Ha.
  destruct (negb _); [reflexivity|].
  destruct (nth 2 faults false); [reflexivity|].
  destruct (hd_error _); [|reflexivity].
  now destruct (nth 3 faults false).
Qed.

Lemma alike_restamp u f d : alike u (restamp f d) d.
Proof.
  repeat split. unfold restamp. simpl. rewrite map_map. now apply map_ext.
Qed.

Lemma alike_repassword u h uid d :
  alike u (set_users d (map (repassword h uid) (users d))) d.
Proof.
  repeat split. rewrite find_user_repassword.
  destruct (find_user u d) as [r|]; [|reflexivity]. simpl.
  unfold repassword. now destruct (Users.id r =? uid).
Qed.

(** ** Crediting an account *)

Lemma find_user_credit u uid b d : find_user u (credit uid b d) = find_user u d.
Proof. reflexivity. Qed.

Lemma validate_credit uid' o uid b d :
  validate uid' o (credit uid b d) = validate uid' o d.
Proof. reflexivity. Qed.

Lemma balance_of_credit uid b b0 d :
  balance_of uid d = Some b0 -> balance_of uid (credit uid b d) = Some b.
Proof.
  unfold balance_of, credit. intros H. simpl. rewrite filter_map_swap.
  match goal with
  | |- context [filter ?f (accounts d)] =>
      rewrite (filter_ext f (account_of uid))
  end.
  - revert H. induction (accounts d) as [|a l IH]; simpl; [discriminate|].
    destruct (account_of uid a) eqn:E; simpl; [|exact IH].
    now rewrite E.
  - intros a. unfold account_of.
    destruct (Accounts.user_id a =? uid) eqn:E; simpl; now rewrite E.
Qed.

(** A transaction on integers below 2^53, for a user with a session and an
    account, when no call to the store fails. *)
Lemma transaction_number sch now op u o d user b a :
  find_user u d = Some user ->
  validate (Users.id user) o d = true ->
  balance_of (Users.id user) d = Some (number b) ->
  Z.abs b < 2 ^ 53 -> Z.abs a < 2 ^ 53 ->
  run sch now [] (transaction op u o (number a)) d
  = (Ok (res 200 (Balance (op (number b) (number a)))),
     credit (Users.id user) (op (number b) (number a)) d).
Proof.
  intros Hu Hv Hb Hb53 Ha53. rewrite transaction_run.
  unfold transaction_result. simpl nth. cbv iota.
  rewrite Hu, Hv, Hb. simpl negb. cbv iota.
  now rewrite !parseFloat_number by assumption.
Qed.

(** ** Overlapping deposits

    A pool of deposits of 1 by one user is, at any moment, a list of
    stages; a turn moves one of them to its next stage. *)

Section Race.

Variables (sch : schema) (now : Z) (u o : string) (user : Users.row).

Lemma advance_stage s d m :
  holds u o user d m -> 0 <= m < 2 ^ 53 -> small s ->
  exists d',
    advance sch now (at_stage u o user s) d
    = (at_stage u o user (fst (next s m)), d')
    /\ holds u o user d' (snd (next s m)).
Proof.
  intros (Hu & Hv & Hb) Hm Hs.
  destruct s as [| | |r|r]; simpl next; simpl fst; simpl snd.
  - exists d. split; [|now repeat split].
    unfold at_stage, deposit, transaction. simpl.
    unfold find_user in Hu.
    destruct (filter (named u) (users d)) as [|x l]; [discriminate|].
    injection Hu as ->. reflexivity.
  - exists d. split; [|now repeat split].
    unfold at_stage, checking. simpl. unfold validate in Hv.
    destruct (List.length _ =? 0)%nat; [discriminate|]. reflexivity.
  - exists d. split; [|now repeat split].
    unfold at_stage, reading. simpl. unfold balance_of in Hb.
    destruct (map Accounts.balance _) as [|x l]; [discriminate|].
    injection Hb as ->. reflexivity.
  - exists (credit (Users.id user) (number (r + 1)) d). split.
    + unfold at_stage, writing. simpl.
      change 1%float with (number 1).
      rewrite !parseFloat_number by (simpl in Hs; lia).
      rewrite add_number by (simpl in Hs; lia). reflexivity.
    + repeat split; try assumption.
      now apply (balance_of_credit _ _ (number m)).
  - exists d. split; [reflexivity|now repeat split].
Qed.

Lemma written_le l : 0 <= written l <= Z.of_nat (List.length l).
Proof.
  unfold written. pose proof (filter_length_le is_written l). lia.
Qed.

Lemma written_lt l : forall i s,
  nth_error l i = Some s -> is_written s = false ->
  written l < Z.of_nat (List.length l).
Proof.
  unfold written. induction l as [|x l IH]; intros [|i] s H Hs;
    try discriminate; cbn [nth_error filter List.length] in *.
  - injection H as ->. rewrite Hs.
    pose proof (filter_length_le is_written l). lia.
  - specialize (IH i s H Hs).
    destruct (is_written x); cbn [List.length]; lia.
Qed.

Lemma written_replace l : forall i s s',
  nth_error l i = Some s ->
  written (replace_nth i s' l)
  = written l - Z.b2z (is_written s) + Z.b2z (is_written s').
Proof.
  unfold written. induction l as [|x l IH]; intros [|i] s s' H;
    try discriminate; cbn [nth_error replace_nth filter] in *.
  - injection H as ->.
    destruct (is_written s), (is_written s'); cbn [List.length Z.b2z]; lia.
  - specialize (IH i s s' H).
    destruct (is_written x); cbn [List.length]; lia.
Qed.

Lemma Forall_replace {A} (P : A -> Prop) x : forall l i,
  Forall P l -> P x -> Forall P (replace_nth i x l).
Proof.
  induction l as [|y l IH]; intros [|i] H Hx; simpl; auto;
    inversion H; subst; constructor; auto.
Qed.

Lemma map_replace {A B} (f : A -> B) x : forall l i,
  replace_nth i (f x) (map f l) = map f (replace_nth i x l).
Proof.
  induction l as [|y l IH]; intros [|i]; simpl; auto. now rewrite IH.
Qed.

Lemma length_replace {A} (x : A) : forall l i,
  List.length (replace_nth i x l) = List.length l.
Proof. induction l as [|y l IH]; intros [|i]; simpl; auto. Qed.

Lemma within_mono w w' s : w <= w' -> within w s -> within w' s.
Proof. destruct s; simpl; lia. Qed.

Lemma turn_stage i l m d :
  holds u o user d m -> counted l m -> Z.of_nat (List.length l) < 2 ^ 53 ->
  exists l' m' d',
    turn sch now i (map (at_stage u o user) l, d)
    = (map (at_stage u o user) l', d')
    /\ holds u o user d' m' /\ counted l' m'
    /\ List.length l' = List.length l.
Proof.
  intros Hd (Hm & H1 & Hall) Hn. unfold turn. simpl fst. simpl snd.
  rewrite nth_error_map.
  destruct (nth_error l i) as [s|] eqn:Hi; simpl option_map.
  2:{ exists l, m, d. split; [reflexivity|]. split; [assumption|].
      split; [|reflexivity]. now repeat split. }
  pose proof (written_le l) as Hw.
  assert (within (written l) s) as Hs.
  { rewrite Forall_forall in Hall. apply Hall. eapply nth_error_In; eauto. }
  assert (small s) as Hsmall.
  { destruct s; simpl in *; auto; try lia.
    pose proof (written_lt l i (Read r) Hi eq_refl). lia. }
  destruct (advance_stage s d m Hd ltac:(lia) Hsmall) as (d' & Hadv & Hd').
  rewrite Hadv. rewrite map_replace.
  exists (replace_nth i (fst (next s m)) l), (snd (next s m)), d'.
  split; [reflexivity|]. split; [assumption|]. split; [|apply length_replace].
  unfold counted. rewrite (written_replace l i s _ Hi).
  destruct s as [| | |r|r]; simpl in *;
    rewrite ?Z.sub_0_r, ?Z.add_0_r; repeat split; try lia;
    try (apply Forall_replace; simpl; auto; lia).
  - apply Forall_replace; simpl; [|lia].
    eapply Forall_impl; [|exact Hall]. intros a. apply within_mono. lia.
  - replace (written l - 1 + 1) with (written l) by lia.
    apply Forall_replace; simpl; auto.
Qed.

Lemma interleave_stages schedule : forall l m d,
  holds u o user d m -> counted l m -> Z.of_nat (List.length l) < 2 ^ 53 ->
  exists l' m' d',
    interleave sch now schedule (map (at_stage u o user) l, d)
    = (map (at_stage u o user) l', d')
    /\ holds u o user d' m' /\ counted l' m'
    /\ List.length l' = List.length l.
Proof.
  induction schedule as [|i schedule IH]; intros l m d Hd Hc Hn.
  - exists l, m, d. split; [reflexivity|]. auto.
  - destruct (turn_stage i l m d Hd Hc Hn)
      as (l1 & m1 & d1 & Ht & Hd1 & Hc1 & Hl1).
    destruct (IH l1 m1 d1 Hd1 Hc1 ltac:(lia))
      as (l2 & m2 & d2 & Hi & Hd2 & Hc2 & Hl2).
    exists l2, m2, d2. split; [|split; [assumption|split; [assumption|lia]]].
    unfold interleave in *. simpl fold_left. now rewrite Ht.
Qed.

Lemma answered_stage s : answered (at_stage u o user s) = is_written s.
Proof. now destruct s. Qed.

Lemma answered_stages l :
  Z.of_nat (List.length (filter answered (map (at_stage u o user) l)))
  = written l.
Proof.
  unfold written. f_equal. induction l as [|s l IH]; [reflexivity|].
  cbn [map filter]. rewrite answered_stage.
  destruct (is_written s); cbn [List.length]; now rewrite IH.
Qed.

End Race.

(** ** One session for each user *)

Lemma single_session_filter d g :
  single_session d -> single_session (set_sessions d (filter g (sessions d))).
Proof.
  intros H uid. specialize (H uid). unfold sessions_of in *. simpl.
  pose proof (length_filter_le (session_of uid) g (sessions d)). lia.
Qed.

Lemma single_session_sessions d d' :
  sessions d' = sessions d -> single_session d -> single_session d'.
Proof. unfold single_session, sessions_of. now intros ->. Qed.

Lemma single_session_insert d uid o now :
  sessions_of uid d = [] -> single_session d ->
  single_session (set_sessions d (sessions d ++ [Sessions.mk uid o now])).
Proof.
  unfold single_session, sessions_of. simpl. intros H0 H uid'.
  rewrite filter_app, length_app. simpl. unfold session_of at 2. simpl.
  destruct (Z.eqb_spec uid uid') as [<-|]; simpl.
  - rewrite H0. simpl. lia.
  - specialize (H uid'). lia.
Qed.

Lemma sessions_of_deleted d uid :
  sessions_of uid
    (set_sessions d (filter (fun s => negb (session_of uid s)) (sessions d)))
  = [].
Proof.
  unfold sessions_of. simpl. rewrite filter_filter. apply filter_nothing.
  intros s _. now destruct (session_of uid s).
Qed.

Lemma single_session_survivors d fk gone us acs n :
  single_session d ->
  single_session
    (mkDb us (survivors fk Sessions.user_id gone (sessions d)) acs n).
Proof.
  intros H. destruct fk; simpl.
  - revert H. now apply single_session_sessions.
  - revert H. now apply single_session_sessions.
  - apply (single_session_sessions
             (set_sessions d
                (filter (fun r => negb (mem (Sessions.user_id r) gone))
                        (sessions d)))); [reflexivity|].
    now apply single_session_filter.
Qed.

Section Claims.

Variable bcrypt_hash : string -> Z -> string -> string.
Variable bcrypt_compare : string -> string -> bool.

(** ** Reading the balance *)

(** [getBalance] never looks at what its session query returned: for a
    known user with an account it answers with the balance, whatever the
    OTP and whatever the session table holds. *)
Lemma getBalance_any_otp sch now d u o user b :
  find_user u d = Some user ->
  balance_of (Users.id user) d = Some b ->
  run sch now [] (getBalance u o) d = (Ok (res 200 (Balance b)), d).
Proof.
  unfold find_user, balance_of, getBalance. intros Hu Hb. simpl.
  destruct (filter (named u) (users d)) as [|user' rows]; [discriminate|].
  simpl in Hu. injection Hu as ->. simpl.
  destruct (map _ _); [discriminate|]. simpl in Hb. injection Hb as ->.
  reflexivity.
Qed.

(** C1, which the code does not meet: after alice has logged out, the code
    550000 matches no session row and the deposit endpoint refuses it with
    404, yet [getBalance] answers 200 with her balance; so it does for a
    code that was never issued. *)
Theorem getBalance_stale_otp :
  validate 1 "550000" alice_logged_out = false
  /\ run spec_schema 3000 [] (getBalance "alice" "550000") alice_logged_out
     = (Ok (res 200 (Balance 0%float)), alice_logged_out)
  /\ run spec_schema 3000 [] (getBalance "alice" "000000") alice_registered
     = (Ok (res 200 (Balance 0%float)), alice_registered)
  /\ run spec_schema 3000 [] (deposit "alice" "550000" 1%float) alice_logged_out
     = (Ok (res 404 (Message "Invalid session or OTP")), alice_logged_out).
Proof. vm_compute. repeat split; reflexivity. Qed.

(** ** Deleting a user *)

(** C3, as the code has it: [deleteUser] is gated by the password alone.
    With the schema of the spec it answers 404 for an unknown name and 401
    for a password that does not verify, and changes nothing in either
    case; otherwise it answers 200, whatever the OTP, and no row of the
    users of that name is left in any of the three tables.  The two
    [DELETE] statements are not one unit: when the store fails on the
    second, the answer is 500 and the session row the first has deleted
    stays deleted. *)
Theorem deleteUser_outcome now d u p o :
  (let (r, d') := run spec_schema now [] (deleteUser bcrypt_compare u p o) d in
   match find_user u d with
   | None => r = Ok (res 404 (Message "User not found")) /\ d' = d
   | Some user =>
       if bcrypt_compare p (Users.password user)
       then r = Ok (res 200 (Message "User deleted"))
            /\ users d' = filter (fun x => negb (named u x)) (users d)
            /\ sessions d' =
                 filter
                   (fun s => negb (mem (Sessions.user_id s) (ids_named u d)))
                   (sessions d)
            /\ accounts d' =
                 filter
                   (fun a => negb (mem (Accounts.user_id a) (ids_named u d)))
                   (accounts d)
       else r = Ok (res 401 (Message "Invalid password")) /\ d' = d
   end)
  /\ (forall user,
        find_user u d = Some user ->
        bcrypt_compare p (Users.password user) = true ->
        run spec_schema now [false; false; true]
            (deleteUser bcrypt_compare u p o) d
        = (Ok (res 500 (Message "Failed to delete user")),
           set_sessions d
             (filter (fun s => negb (session_is (Users.id user) o s))
                     (sessions d)))).
Proof.
  split.
  - destruct (find_user u d) as [user|] eqn:Hu.
    + unfold find_user in Hu. unfold deleteUser. simpl.
      destruct (filter (named u) (users d)) as [|user' rows] eqn:Hf;
        [discriminate|].
      injection Hu as ->. simpl.
      destruct (bcrypt_compare p (Users.password user)); simpl; [|easy].
      repeat split. unfold ids_named. simpl. rewrite Hf.
      rewrite filter_filter. apply filter_ext. intros s. unfold session_is.
      destruct (Z.eqb_spec (Sessions.user_id s) (Users.id user)) as [->|];
        simpl.
      * rewrite Z.eqb_refl. simpl. now rewrite andb_false_r.
      * reflexivity.
    + unfold find_user in Hu. unfold deleteUser. simpl.
      destruct (filter (named u) (users d)); [easy|discriminate].
  - intros user Hu Hp. unfold find_user in Hu. unfold deleteUser. simpl.
    destruct (filter (named u) (users d)) as [|user' rows];
      [discriminate|].
    injection Hu as ->. simpl. now rewrite Hp.
Qed.

(** C3 as stated fails: alice holds a session with the code 550000; a
    [deleteUser] with her password and the code 000000, which matches no
    session, answers 200 and removes her user, session and account rows. *)
Lemma deleteUser_wrong_otp :
  validate 1 "000000" alice_logged_in = false
  /\ run spec_schema 2000 []
       (deleteUser salted_compare "alice" "pw1" "000000") alice_logged_in
     = (Ok (res 200 (Message "User deleted")), mkDb [] [] [] 2).
Proof. vm_compute. split; reflexivity. Qed.

(** ** Registering *)

(** C6, as the code has it: where the schema makes [username] unique,
    registering a name that exists answers 500 (every failure of the
    handler does) and leaves the store as it was; registering a new name
    answers 201 and adds one user row and one account row with balance 0,
    provided no account row already carries the id the user gets. *)
Theorem register_outcome sch now d salt u p :
  username_unique sch = true ->
  (existsb (named u) (users d) = true ->
   run sch now [] (register bcrypt_hash salt u p) d
   = (Ok (res 500 (Message "Failed to create user")), d))
  /\ (existsb (named u) (users d) = false ->
      existsb (account_of (next_id d)) (accounts d) = false ->
      run sch now [] (register bcrypt_hash salt u p) d
      = (Ok (res 201 (Message "User created")),
         mkDb (users d
                 ++ [Users.mk (next_id d) u (encryptPassword bcrypt_hash salt p)])
              (sessions d)
              (accounts d ++ [Accounts.mk (next_id d) 0%float])
              (next_id d + 1))).
Proof.
  intros Huniq. split.
  - intros Hdup. unfold register. simpl. now rewrite Huniq, Hdup.
  - intros Hnew Hacc. unfold register. simpl.
    rewrite Hnew, andb_false_r. simpl.
    rewrite filter_app. simpl. unfold named at 2. simpl.
    rewrite String.eqb_refl.
    apply existsb_filter_nil in Hnew. rewrite Hnew. simpl.
    assert (orphan (accounts_fk sch) (next_id d)
              (mkDb (users d ++ [Users.mk (next_id d) u
                                   (encryptPassword bcrypt_hash salt p)])
                 (sessions d) (accounts d) (next_id d + 1)) = false) as ->.
    { unfold orphan, has_user. simpl. rewrite existsb_app. simpl.
      rewrite Z.eqb_refl, orb_true_r. now destruct (accounts_fk sch). }
    simpl. rewrite Hacc, andb_false_r. reflexivity.
Qed.

(** C6 as stated fails: registering alice a second time answers 500, which
    is no status of the 409 class. *)
Lemma register_duplicate_is_500 :
  fst (run spec_schema 5 [] (register salted_hash "salt" "alice" "pw2")
         alice_registered)
  = Ok (res 500 (Message "Failed to create user"))
  /\ 500 <> 409.
Proof. split; [vm_compute; reflexivity | discriminate]. Qed.

(** ** Logging in *)

(** C7: a login that fails because the name is unknown and a login that
    fails because the password does not verify answer alike, with status
    401 and the body [{ message: "Login failed." }], and neither changes
    the store.  (The lookup itself is taken to succeed; whether later calls
    to the store would fail does not matter.) *)
Theorem login_failures_alike
    sch now1 now2 fs1 fs2 d1 d2 random1 random2 u1 p1 u2 p2 user :
  find_user u1 d1 = None ->
  find_user u2 d2 = Some user ->
  bcrypt_compare p2 (Users.password user) = false ->
  run sch now1 (false :: fs1) (login bcrypt_compare random1 u1 p1) d1
    = (Ok (res 401 (Message "Login failed.")), d1)
  /\ run sch now2 (false :: fs2) (login bcrypt_compare random2 u2 p2) d2
     = (Ok (res 401 (Message "Login failed.")), d2).
Proof.
  unfold find_user, login. intros H1 H2 Hp. simpl.
  destruct (filter (named u1) (users d1)); [|discriminate].
  destruct (filter (named u2) (users d2)); [discriminate|].
  injection H2 as ->. simpl. now rewrite Hp.
Qed.

(** A login with a name that exists and a password that verifies, when no
    call to the store fails: the session rows of the user are deleted and
    one row with the new code is added. *)
Lemma login_succeeds sch now d random u p user :
  find_user u d = Some user ->
  bcrypt_compare p (Users.password user) = true ->
  run sch now [] (login bcrypt_compare random u p) d
  = (Ok (res 200 (Otp (generateOtp random))),
     set_sessions d
       (filter (fun s => negb (session_of (Users.id user) s)) (sessions d)
        ++ [Sessions.mk (Users.id user) (generateOtp random) now])).
Proof.
  intros Hu Hp. pose proof (find_user_has _ _ _ Hu) as Hhas.
  unfold find_user in Hu. unfold login. simpl.
  destruct (filter (named u) (users d)) as [|user' rows]; [discriminate|].
  injection Hu as ->. simpl. rewrite Hp. simpl.
  destruct (filter (session_of (Users.id user)) (sessions d)) eqn:Hs; simpl.
  - assert (orphan (sessions_fk sch) (Users.id user) d = false) as ->.
    { unfold orphan. rewrite Hhas. now destruct (sessions_fk sch). }
    apply existsb_filter_nil in Hs as He. rewrite He, andb_false_r. simpl.
    rewrite (filter_all (fun s => negb (session_of (Users.id user) s)));
      [reflexivity|].
    intros s Hin. now rewrite (filter_none _ _ Hs s Hin).
  - assert (orphan (sessions_fk sch) (Users.id user)
              (set_sessions d
                 (filter (fun s => negb (session_of (Users.id user) s))
                         (sessions d))) = false) as ->.
    { unfold orphan, has_user. simpl. fold (has_user (Users.id user) d).
      rewrite Hhas. now destruct (sessions_fk sch). }
    simpl.
    assert (existsb (session_of (Users.id user))
              (filter (fun s => negb (session_of (Users.id user) s))
                      (sessions d)) = false) as ->.
    { apply existsb_filter_nil. apply (sessions_of_deleted d). }
    rewrite andb_false_r. reflexivity.
Qed.

(** When no call to the store fails, a login has two answers only. *)
Lemma login_answers sch now d random u p :
  fst (run sch now [] (login bcrypt_compare random u p) d)
  = Ok (res 200 (Otp (generateOtp random)))
  \/ fst (run sch now [] (login bcrypt_compare random u p) d)
     = Ok (res 401 (Message "Login failed.")).
Proof.
  destruct (find_user u d) as [user|] eqn:Hu.
  - destruct (bcrypt_compare p (Users.password user)) eqn:Hp.
    + left. now rewrite (login_succeeds sch now d random u p user Hu Hp).
    + right. unfold find_user in Hu. unfold login. simpl.
      destruct (filter (named u) (users d)); [discriminate|].
      injection Hu as ->. simpl. now rewrite Hp.
  - right. unfold find_user in Hu. unfold login. simpl.
    now destruct (filter (named u) (users d)).
Qed.

Lemma serve_cons sch e es d :
  serve bcrypt_hash bcrypt_compare sch (e :: es) d
  = serve bcrypt_hash bcrypt_compare sch es
      (after bcrypt_hash bcrypt_compare sch e d).
Proof. reflexivity. Qed.

(** Whatever request is served, and whatever calls to the store fail, no
    user gets a second session row. *)
Lemma handle_single_session sch now r d :
  single_session d ->
  wp sch now (handle bcrypt_hash bcrypt_compare r)
     (fun _ d' => single_session d') d.
Proof.
  intros H.
  destruct r; simpl;
    unfold register, login, updatePassword, deleteUser, logout, getBalance,
      deposit, withdraw, transaction; simpl;
    repeat wp_step; try assumption;
    try (revert H; apply single_session_sessions; reflexivity);
    try (apply single_session_filter; assumption).
  - apply single_session_insert; assumption.
  - apply (single_session_insert (set_sessions d _)).
    + apply sessions_of_deleted.
    + now apply single_session_filter.
  - apply (single_session_survivors (set_sessions d _)).
    now apply single_session_filter.
Qed.

Lemma clearSessions_single_session sch now date d :
  single_session d ->
  wp sch now (clearSessions date) (fun _ d' => single_session d') d.
Proof.
  intros H. unfold clearSessions. simpl. split; [assumption|].
  now apply single_session_filter.
Qed.

Lemma after_single_session sch e d :
  single_session d ->
  single_session (after bcrypt_hash bcrypt_compare sch e d).
Proof.
  intros H. destruct e as [now faults r|now faults]; simpl.
  - apply (wp_run sch now (handle bcrypt_hash bcrypt_compare r)
             (fun _ d' => single_session d')).
    now apply handle_single_session.
  - apply (wp_run sch now (clearSessions now) (fun _ d' => single_session d')).
    now apply clearSessions_single_session.
Qed.

Lemma serve_single_session sch es : forall d,
  single_session d ->
  single_session (serve bcrypt_hash bcrypt_compare sch es d).
Proof.
  induction es as [|e es IH]; simpl; intros d H; [assumption|].
  apply IH. now apply after_single_session.
Qed.

(** C4, as the code has it: a login that succeeds deletes the session rows
    of the user before it inserts the new one, so that afterwards the only
    session row of the user carries the new code.  A code validates
    afterwards exactly when it is the new code: the first OTP is refused by
    the transaction endpoints unless the generator has drawn it again.  And
    whatever requests and passes of the reaper are served from the empty
    store, one after the other, no user has two session rows. *)
Theorem second_login_supersedes sch now d random u p user es :
  find_user u d = Some user ->
  bcrypt_compare p (Users.password user) = true ->
  let (r, d') := run sch now [] (login bcrypt_compare random u p) d in
  r = Ok (res 200 (Otp (generateOtp random)))
  /\ sessions_of (Users.id user) d'
     = [Sessions.mk (Users.id user) (generateOtp random) now]
  /\ (forall o, validate (Users.id user) o d'
                = String.eqb (generateOtp random) o)
  /\ (forall o op a now', o <> generateOtp random ->
        fst (run sch now' [] (transaction op u o a) d')
        = Ok (res 404 (Message "Invalid session or OTP")))
  /\ single_session (serve bcrypt_hash bcrypt_compare sch es empty_db).
Proof.
  intros Hu Hp. rewrite (login_succeeds sch now d random u p user Hu Hp).
  set (uid := Users.id user). set (otp := generateOtp random).
  assert (forall o,
            filter (session_is uid o)
              (filter (fun s => negb (session_of uid s)) (sessions d)
               ++ [Sessions.mk uid otp now])
            = if String.eqb otp o then [Sessions.mk uid otp now] else [])
    as Hvalid.
  { intros o. rewrite filter_app, filter_filter.
    rewrite (filter_nothing _ (sessions d)).
    - simpl. unfold session_is. simpl. now rewrite Z.eqb_refl.
    - intros s _. unfold session_is, session_of.
      now destruct (Sessions.user_id s =? uid). }
  assert (forall o,
            validate uid o
              (set_sessions d
                 (filter (fun s => negb (session_of uid s)) (sessions d)
                  ++ [Sessions.mk uid otp now]))
            = String.eqb otp o) as Hval.
  { intros o. unfold validate. simpl. rewrite Hvalid.
    now destruct (String.eqb otp o). }
  split; [reflexivity|]. split.
  { unfold sessions_of. simpl. rewrite filter_app.
    rewrite (sessions_of_deleted d uid : filter _ (filter _ _) = []).
    simpl. unfold session_of. simpl. now rewrite Z.eqb_refl. }
  split; [exact Hval|]. split.
  - intros o op a now' Hne. rewrite transaction_run.
    unfold transaction_result. simpl nth. cbv iota.
    change (find_user u (set_sessions d _)) with (find_user u d).
    rewrite Hu. fold uid. rewrite Hval.
    assert (String.eqb otp o = false) as ->
      by (apply String.eqb_neq; congruence).
    reflexivity.
  - apply serve_single_session. intros uid'. simpl. lia.
Qed.

(** ** Depositing and withdrawing *)

Lemma deposit_number sch now u o d user b a :
  find_user u d = Some user ->
  validate (Users.id user) o d = true ->
  balance_of (Users.id user) d = Some (number b) ->
  Z.abs b < 2 ^ 53 -> Z.abs a < 2 ^ 53 -> Z.abs (b + a) < 2 ^ 53 ->
  run sch now [] (deposit u o (number a)) d
  = (Ok (res 200 (Balance (number (b + a)))),
     credit (Users.id user) (number (b + a)) d).
Proof.
  intros Hu Hv Hb Hb53 Ha53 Hs53. unfold deposit.
  rewrite (transaction_number sch now _ u o d user b a) by assumption.
  now rewrite add_number.
Qed.

Lemma withdraw_number sch now u o d user b a :
  find_user u d = Some user ->
  validate (Users.id user) o d = true ->
  balance_of (Users.id user) d = Some (number b) ->
  Z.abs b < 2 ^ 53 -> Z.abs a < 2 ^ 53 -> Z.abs (b - a) < 2 ^ 53 ->
  run sch now [] (withdraw u o (number a)) d
  = (Ok (res 200 (Balance (number (b - a)))),
     credit (Users.id user) (number (b - a)) d).
Proof.
  intros Hu Hv Hb Hb53 Ha53 Hs53. unfold withdraw.
  rewrite (transaction_number sch now _ u o d user b a) by assumption.
  now rewrite sub_number.
Qed.

(** C5, as the code has it: the balance is computed in binary64, so the law
    holds where the arithmetic is exact.  For a user with a session and an
    account whose balance is an integer [b], a deposit of an integer amount
    [a >= 0] followed by a withdrawal of [a] brings the balance back to
    [b], when [b], [a] and [b + a] lie below 2^53. *)
Theorem deposit_then_withdraw sch now1 now2 d u o user b a :
  find_user u d = Some user ->
  validate (Users.id user) o d = true ->
  balance_of (Users.id user) d = Some (number b) ->
  0 <= a < 2 ^ 53 -> Z.abs b < 2 ^ 53 -> Z.abs (b + a) < 2 ^ 53 ->
  let (r1, d1) := run sch now1 [] (deposit u o (number a)) d in
  let (r2, d2) := run sch now2 [] (withdraw u o (number a)) d1 in
  r1 = Ok (res 200 (Balance (number (b + a))))
  /\ r2 = Ok (res 200 (Balance (number b)))
  /\ balance_of (Users.id user) d2 = Some (number b).
Proof.
  intros Hu Hv Hb Ha Hb53 Hs53.
  rewrite (deposit_number sch now1 u o d user b a) by (assumption || lia).
  rewrite (withdraw_number sch now2 u o _ user (b + a) a);
    try assumption; try lia.
  - replace (b + a - a) with b by lia. repeat split.
    apply (balance_of_credit _ _ (number (b + a))).
    now apply (balance_of_credit _ _ (number b)).
  - now apply (balance_of_credit _ _ (number b)).
Qed.

(** Deposits of 1 count up, whether the requests are served at their own
    times or run one by one as handlers of a pool. *)
Lemma deposits_served sch u o user : forall nows b d,
  find_user u d = Some user ->
  validate (Users.id user) o d = true ->
  balance_of (Users.id user) d = Some (number b) ->
  0 <= b -> b + Z.of_nat (List.length nows) < 2 ^ 53 ->
  balance_of (Users.id user)
    (serve bcrypt_hash bcrypt_compare sch
       (map (fun now => Request now [] (POST_deposit u o 1%float)) nows) d)
  = Some (number (b + Z.of_nat (List.length nows))).
Proof.
  induction nows as [|now nows IH]; intros b d Hu Hv Hb H0 H53.
  - simpl. now rewrite Z.add_0_r.
  - cbn [map]. rewrite serve_cons.
    change (after bcrypt_hash bcrypt_compare sch
              (Request now [] (POST_deposit u o 1%float)) d)
      with (snd (run sch now [] (deposit u o (number 1)) d)).
    simpl List.length in H53. rewrite Nat2Z.inj_succ in H53.
    rewrite (deposit_number sch now u o d user b 1) by (assumption || lia).
    simpl snd. simpl List.length. rewrite Nat2Z.inj_succ.
    replace (b + Z.succ (Z.of_nat (List.length nows)))
      with (b + 1 + Z.of_nat (List.length nows)) by lia.
    apply IH; try assumption; try lia.
    now apply (balance_of_credit _ _ (number b)).
Qed.

Lemma deposits_run sch now u o user : forall n b d,
  find_user u d = Some user ->
  validate (Users.id user) o d = true ->
  balance_of (Users.id user) d = Some (number b) ->
  0 <= b -> b + Z.of_nat n < 2 ^ 53 ->
  balance_of (Users.id user)
    (one_by_one sch now (repeat (deposit u o 1%float) n) d)
  = Some (number (b + Z.of_nat n)).
Proof.
  induction n as [|n IH]; intros b d Hu Hv Hb H0 H53.
  - simpl. now rewrite Z.add_0_r.
  - cbn [repeat one_by_one]. change 1%float with (number 1).
    rewrite Nat2Z.inj_succ in H53.
    rewrite (deposit_number sch now u o d user b 1) by (assumption || lia).
    simpl snd. rewrite Nat2Z.inj_succ.
    replace (b + Z.succ (Z.of_nat n)) with (b + 1 + Z.of_nat n) by lia.
    apply IH; try assumption; try lia.
    now apply (balance_of_credit _ _ (number b)).
Qed.

Lemma written_start n : written (repeat Start n) = 0.
Proof.
  unfold written. induction n as [|n IH]; [reflexivity|exact IH].
Qed.

Lemma counted_start n : counted (repeat Start n) 0.
Proof.
  unfold counted. rewrite written_start. repeat split; try lia.
  apply Forall_forall. intros s Hs. apply repeat_spec in Hs. now subst.
Qed.

(** C2, as the code has it: a deposit is a [SELECT] followed by a separate
    [UPDATE].  When [n] deposits of 1 do not overlap, each being complete
    before the next begins, the balance counts them: from 0 it reaches
    [n], as long as [n] lies below 2^53.  This is so for a pool of [n]
    handlers under the serial schedule, and for [n] requests served at
    any times one after the other.  Under any other schedule the balance
    counts at most the deposits that have answered, and at least one of
    them. *)
Theorem deposits_of_one sch now u o user n d :
  find_user u d = Some user ->
  validate (Users.id user) o d = true ->
  balance_of (Users.id user) d = Some 0%float ->
  Z.of_nat n < 2 ^ 53 ->
  balance_of (Users.id user)
    (snd (interleave sch now
            (serial sch now 0 (repeat (deposit u o 1%float) n) d)
            (repeat (deposit u o 1%float) n, d)))
  = Some (number (Z.of_nat n))
  /\ (forall nows, List.length nows = n ->
        balance_of (Users.id user)
          (serve bcrypt_hash bcrypt_compare sch
             (map (fun now => Request now [] (POST_deposit u o 1%float)) nows)
             d)
        = Some (number (Z.of_nat n)))
  /\ (forall schedule, exists m,
        balance_of (Users.id user)
          (snd (interleave sch now schedule
                  (repeat (deposit u o 1%float) n, d)))
        = Some (number m)
        /\ m <= Z.of_nat
                  (List.length
                     (filter answered
                        (fst (interleave sch now schedule
                                (repeat (deposit u o 1%float) n, d)))))
        /\ m <= Z.of_nat n
        /\ (0 < Z.of_nat
                  (List.length
                     (filter answered
                        (fst (interleave sch now schedule
                                (repeat (deposit u o 1%float) n, d)))))
            -> 1 <= m)).
Proof.
  intros Hu Hv Hb H53. split; [|split].
  - pose proof (interleave_serial sch now
                  (repeat (deposit u o 1%float) n) [] d) as Hserial.
    simpl in Hserial. rewrite Hserial.
    apply (deposits_run sch now u o user n 0 d); try assumption; lia.
  - intros nows <-.
    apply (deposits_served sch u o user nows 0 d); try assumption; lia.
  - intros schedule.
    assert (holds u o user d 0) as Hd by (repeat split; assumption).
    destruct (interleave_stages sch now u o user schedule (repeat Start n) 0 d
                Hd (counted_start n))
      as (l & m & d' & Hi & (_ & _ & Hm) & (Hle & H1 & _) & Hl).
    { now rewrite repeat_length. }
    rewrite map_repeat in Hi. change (at_stage u o user Start)
      with (deposit u o 1%float) in Hi.
    rewrite Hi. simpl fst. simpl snd. rewrite answered_stages.
    exists m. rewrite repeat_length in Hl. pose proof (written_le l).
    repeat split; try assumption; lia.
Qed.

(** ** The reaper *)

(** C9: a pass of [clearSessions] at time [now], its call to the store
    not failing, deletes every session row older than ten minutes and
    keeps the others, and touches no other table.  The transaction
    endpoints never look at the time of a login, nor at the clock: their
    answer is the same whatever the timestamps of the session rows are, so
    a session validates whatever its age. *)
Theorem reaper_and_validation sch now d :
  (forall s, In s (sessions (snd (run sch now [] (clearSessions now) d)))
             <-> In s (sessions d)
                 /\ now - Sessions.login_timestamp s <= tenMinutes)
  /\ users (snd (run sch now [] (clearSessions now) d)) = users d
  /\ accounts (snd (run sch now [] (clearSessions now) d)) = accounts d
  /\ (forall f now1 now2 faults op u o a,
        fst (run sch now1 faults (transaction op u o a) (restamp f d))
        = fst (run sch now2 faults (transaction op u o a) d)).
Proof.
  split; [|split; [reflexivity|split; [reflexivity|]]].
  - intros s. unfold clearSessions. simpl. rewrite filter_In.
    unfold tenMinutes.
    destruct (Z.ltb_spec (Sessions.login_timestamp s) (now - 10 * 60 * 1000));
      simpl; intuition (try discriminate; try lia).
  - intros f now1 now2 faults op u o a.
    apply transaction_alike, alike_restamp.
Qed.

(** ** Changing the password *)

(** C10: whatever it answers, and whatever calls to the store fail,
    [updatePassword] leaves the session and account tables as they are.
    When it answers 200 the users table differs only in the password of
    the user found.  Codes validate after it as they did before, balances
    are the same, and the transaction endpoints answer as they would have
    before the change. *)
Theorem updatePassword_frame sch now faults d salt u p p' :
  let (r, d') :=
    run sch now faults
      (updatePassword bcrypt_hash bcrypt_compare salt u p p') d in
  sessions d' = sessions d /\ accounts d' = accounts d
  /\ (r = Ok (res 200 (Message "Password updated")) ->
      exists user,
        find_user u d = Some user
        /\ bcrypt_compare p (Users.password user) = true
        /\ users d'
           = map (repassword (encryptPassword bcrypt_hash salt p')
                             (Users.id user)) (users d))
  /\ (forall uid o, validate uid o d' = validate uid o d)
  /\ (forall uid, balance_of uid d' = balance_of uid d)
  /\ (forall now' faults' op u' o a,
        fst (run sch now' faults' (transaction op u' o a) d')
        = fst (run sch now' faults' (transaction op u' o a) d)).
Proof.
  pose (Q := fun (r : outcome response) (d' : db) =>
    sessions d' = sessions d /\ accounts d' = accounts d
    /\ (r = Ok (res 200 (Message "Password updated")) ->
        exists user,
          find_user u d = Some user
          /\ bcrypt_compare p (Users.password user) = true
          /\ users d'
             = map (repassword (encryptPassword bcrypt_hash salt p')
                               (Users.id user)) (users d))
    /\ (forall uid o, validate uid o d' = validate uid o d)
    /\ (forall uid, balance_of uid d' = balance_of uid d)
    /\ (forall now' faults' op u' o a,
          fst (run sch now' faults' (transaction op u' o a) d')
          = fst (run sch now' faults' (transaction op u' o a) d))).
  assert (forall r, r <> Ok (res 200 (Message "Password updated")) -> Q r d)
    as Hsame.
  { intros r Hr. unfold Q. repeat split; try reflexivity. now intros ->. }
  assert (wp sch now (updatePassword bcrypt_hash bcrypt_compare salt u p p')
             Q d) as Hwp.
  { unfold updatePassword. simpl. split; [now apply Hsame|].
    destruct (filter (named u) (users d)) as [|user rows] eqn:Hf; simpl;
      [now apply Hsame|].
    destruct (bcrypt_compare p (Users.password user)) eqn:Hp; simpl;
      [|now apply Hsame].
    split; [now apply Hsame|].
    unfold Q. split; [reflexivity|]. split; [reflexivity|]. split.
    { intros _. exists user. repeat split; [|assumption].
      unfold find_user. now rewrite Hf. }
    split; [reflexivity|]. split; [reflexivity|].
    intros now' faults' op u' o a. apply transaction_alike.
    exact (alike_repassword u' (encryptPassword bcrypt_hash salt p')
             (Users.id user) d). }
  pose proof (wp_run sch now _ Q d faults Hwp) as H.
  destruct (run sch now faults _ d) as [r d']. exact H.
Qed.
(** ** Logging out *)

(** C8, as the code has it: [logout] answers 404 only when the name is
    unknown.  For a known user it answers 200 whether or not the OTP matches
    a session, and removes exactly the session rows of that user with that
    OTP: when none matches the store is left as it was. *)
Theorem logout_outcome sch now d u o :
  let (r, d') := run sch now [] (logout u o) d in
  match find_user u d with
  | None =>
      r = Ok (res 404 (Message "User not found or already logged out"))
      /\ d' = d
  | Some user =>
      r = Ok (res 200 (Message "Logout successful"))
      /\ sessions d' =
           filter (fun s => negb (session_is (Users.id user) o s)) (sessions d)
      /\ users d' = users d /\ accounts d' = accounts d
      /\ (validate (Users.id user) o d = false -> d' = d)
  end.
Proof.
  unfold find_user, logout. simpl.
  destruct (filter (named u) (users d)) as [|user rows]; simpl; [easy|].
  repeat split. intros H%validate_false.
  rewrite filter_all; [apply set_sessions_same|].
  intros s Hs. now rewrite (filter_none _ _ H s Hs).
Qed.

(** C8 as stated fails: alice holds a session with the code 550000; a
    [logout] with the code 000000 answers 200, not 404, and her session
    stays. *)
Lemma logout_wrong_otp :
  validate 1 "000000" alice_logged_in = false
  /\ run spec_schema 2000 [] (logout "alice" "000000") alice_logged_in
     = (Ok (res 200 (Message "Logout successful")), alice_logged_in)
  /\ validate 1 "550000" alice_logged_in = true.
Proof. vm_compute. repeat split; reflexivity. Qed.

End Claims.

(** ** The theorems at work on the scenarios *)

Lemma register_outcome_witness :
  run spec_schema 5 [] (register salted_hash "salt" "alice" "pw2")
      alice_registered
  = (Ok (res 500 (Message "Failed to create user")), alice_registered)
  /\ run spec_schema 5 [] (register salted_hash "salt" "bob" "pw2")
         alice_registered
     = (Ok (res 201 (Message "User created")),
        mkDb (users alice_registered ++ [Users.mk 2 "bob" "saltpw2"])
             []
             (accounts alice_registered ++ [Accounts.mk 2 0%float])
             3).
Proof.
  split.
  - apply (register_outcome salted_hash spec_schema 5 alice_registered
             "salt" "alice" "pw2"); reflexivity.
  - apply (register_outcome salted_hash spec_schema 5 alice_registered
             "salt" "bob" "pw2"); reflexivity.
Defined.

Lemma login_failures_alike_witness :
  run spec_schema 7 [false] (login salted_compare 0.5%float "bob" "pw1")
      alice_registered
  = (Ok (res 401 (Message "Login failed.")), alice_registered)
  /\ run spec_schema 8 [false; true]
         (login salted_compare 0.25%float "alice" "pw2") alice_registered
     = (Ok (res 401 (Message "Login failed.")), alice_registered).
Proof.
  apply (login_failures_alike salted_compare spec_schema 7 8 [] [true]
           alice_registered alice_registered 0.5%float 0.25%float
           "bob" "pw1" "alice" "pw2" (Users.mk 1 "alice" "saltpw1"));
    reflexivity.
Defined.

Lemma second_login_supersedes_witness :
  let (r, d') :=
    run spec_schema 2000 [] (login salted_compare 0.25%float "alice" "pw1")
        alice_logged_in in
  r = Ok (res 200 (Otp (generateOtp 0.25%float)))
  /\ sessions_of 1 d' = [Sessions.mk 1 (generateOtp 0.25%float) 2000]
  /\ (forall o, validate 1 o d' = String.eqb (generateOtp 0.25%float) o)
  /\ (forall o op a now', o <> generateOtp 0.25%float ->
        fst (run spec_schema now' [] (transaction op "alice" o a) d')
        = Ok (res 404 (Message "Invalid session or OTP")))
  /\ single_session
       (serve salted_hash salted_compare spec_schema
          [Request 0 [] (POST_users "salt" "alice" "pw1");
           Request 1000 [] (POST_login 0.5%float "alice" "pw1");
           Timer 5000 [true];
           Request 6000 [false; false; true]
             (POST_login 0.25%float "alice" "pw1")]
          empty_db).
Proof.
  apply (second_login_supersedes salted_hash salted_compare spec_schema 2000
           alice_logged_in 0.25%float "alice" "pw1"
           (Users.mk 1 "alice" "saltpw1")); reflexivity.
Defined.

(** C4 as stated fails: alice logs in twice and [Math.random()] draws 0.5
    both times; the first OTP, 550000, still validates after the second
    login, and a deposit made with it is accepted. *)
Lemma second_login_same_code :
  fst (run spec_schema 1000 [] (login salted_compare 0.5%float "alice" "pw1")
         alice_registered)
  = Ok (res 200 (Otp "550000"))
  /\ fst (run spec_schema 2000 []
            (login salted_compare 0.5%float "alice" "pw1") alice_logged_in)
     = Ok (res 200 (Otp "550000"))
  /\ validate 1 "550000" alice_logged_in_again = true
  /\ fst (run spec_schema 3000 [] (deposit "alice" "550000" 1%float)
            alice_logged_in_again)
     = Ok (res 200 (Balance 1%float)).
Proof. vm_compute. repeat split; reflexivity. Qed.

Lemma deposit_then_withdraw_witness :
  let (r1, d1) :=
    run spec_schema 2000 [] (deposit "alice" "550000" (number 40))
        alice_logged_in in
  let (r2, d2) :=
    run spec_schema 3000 [] (withdraw "alice" "550000" (number 40)) d1 in
  r1 = Ok (res 200 (Balance (number (0 + 40))))
  /\ r2 = Ok (res 200 (Balance (number 0)))
  /\ balance_of 1 d2 = Some (number 0).
Proof.
  apply (deposit_then_withdraw spec_schema 2000 3000 alice_logged_in
           "alice" "550000" (Users.mk 1 "alice" "saltpw1") 0 40);
    try reflexivity; try lia.
Defined.

(** C5 as stated fails: with 0.1 on the account, a deposit of 0.2 followed
    by a withdrawal of 0.2 leaves 0.10000000000000003, as
    [(0.1 + 0.2) - 0.2] is in binary64. *)
Lemma round_trip_inexact :
  balance_of 1 alice_has_a_tenth = Some 0x1.999999999999ap-4%float
  /\ balance_of 1 alice_after_round_trip = Some 0x1.999999999999cp-4%float
  /\ (0x1.999999999999cp-4 =? 0x1.999999999999ap-4)%float = false
  /\ 0x1.999999999999cp-4%float <> 0x1.999999999999ap-4%float.
Proof.
  repeat split; try (vm_compute; reflexivity).
  intros H. apply (f_equal Prim2SF) in H. vm_compute in H. discriminate.
Qed.

Lemma deposits_of_one_witness :
  balance_of 1
    (snd (interleave spec_schema 2000
            (serial spec_schema 2000 0
               (repeat (deposit "alice" "550000" 1%float) 3) alice_logged_in)
            (repeat (deposit "alice" "550000" 1%float) 3, alice_logged_in)))
  = Some (number (Z.of_nat 3))
  /\ (forall nows, List.length nows = 3%nat ->
        balance_of 1
          (serve salted_hash salted_compare spec_schema
             (map (fun now =>
                     Request now [] (POST_deposit "alice" "550000" 1%float))
                  nows)
             alice_logged_in)
        = Some (number (Z.of_nat 3)))
  /\ (forall schedule, exists m,
        balance_of 1
          (snd (interleave spec_schema 2000 schedule
                  (repeat (deposit "alice" "550000" 1%float) 3,
                   alice_logged_in)))
        = Some (number m)
        /\ m <= Z.of_nat
                  (List.length
                     (filter answered
                        (fst (interleave spec_schema 2000 schedule
                                (repeat (deposit "alice" "550000" 1%float) 3,
                                 alice_logged_in)))))
        /\ m <= Z.of_nat 3
        /\ (0 < Z.of_nat
                  (List.length
                     (filter answered
                        (fst (interleave spec_schema 2000 schedule
                                (repeat (deposit "alice" "550000" 1%float) 3,
                                 alice_logged_in)))))
            -> 1 <= m)).
Proof.
  apply (deposits_of_one salted_hash salted_compare spec_schema 2000
           "alice" "550000" (Users.mk 1 "alice" "saltpw1") 3 alice_logged_in);
    reflexivity.
Defined.

(** C2 as stated fails: two deposits of 1 by alice overlap; each reads the
    balance 0 before the other has written, each writes 1 and answers
    [{ balance: 1 }], and the balance ends at 1, not 2. *)
Lemma two_deposits_lose_one :
  balance_of 1 alice_logged_in = Some (number 0)
  /\ map answer
       (fst (interleave spec_schema 2000 [0; 1; 0; 1; 0; 1; 0; 1]%nat
               (two_deposits, alice_logged_in)))
     = [Some (Ok (res 200 (Balance (number 1))));
        Some (Ok (res 200 (Balance (number 1))))]
  /\ balance_of 1
       (snd (interleave spec_schema 2000 [0; 1; 0; 1; 0; 1; 0; 1]%nat
               (two_deposits, alice_logged_in)))
     = Some (number 1)
  /\ number 1 <> number 2.
Proof.
  repeat split; try (vm_compute; reflexivity).
  intros H. apply (f_equal Prim2SF) in H. vm_compute in H. discriminate.
Qed.

(** * Further properties

    What else the code shows: the range of the one-time code, which
    requests are always answered, what an unknown name or an unknown code
    gets, what a request can change, and how the endpoints follow one
    another. *)

(** ** The one-time code

    [generateOtp] computes [100000 + Math.random() * 900000] in binary64
    and takes the integer part.  For every draw below 1 the product is
    rounded to a number no greater than the float just below 900000, and
    the sum to a number no greater than the float just below 1000000.
    The proof follows [SFmul] and [SFadd] through [binary_round_aux]. *)

Lemma bit_length_bounds p :
  2 ^ (bit_length p - 1) <= Zpos p < 2 ^ bit_length p.
Proof.
  unfold bit_length.
  induction p as [p IH|p IH|]; simpl digits2_pos;
    rewrite ?Pos2Z.inj_succ; [| |simpl; lia];
    pose proof (Pos2Z.is_pos (digits2_pos p));
    replace (Z.succ (Zpos (digits2_pos p)) - 1)
      with (Z.succ (Zpos (digits2_pos p) - 1)) by lia;
    rewrite !Z.pow_succ_r by lia; lia.
Qed.

Lemma shr_1_spec m r s :
  0 <= m ->
  shr_m (shr_1 (Build_shr_record m r s)) = m / 2
  /\ (shr_r (shr_1 (Build_shr_record m r s)) = true -> m mod 2 = 1).
Proof.
  intros Hm. destruct m as [|[p|p|]|p]; try lia; cbn [shr_1 shr_m shr_r].
  - split; [reflexivity|discriminate].
  - rewrite Pos2Z.inj_xI. split; [|intros _].
    + apply (Z.div_unique _ _ _ 1); lia.
    + symmetry. apply (Z.mod_unique _ _ (Zpos p)); lia.
  - rewrite Pos2Z.inj_xO. split; [|discriminate].
    apply (Z.div_unique _ _ _ 0); lia.
  - split; reflexivity.
Qed.

Lemma shr_iter_spec m k :
  0 <= m ->
  shr_m (Nat.iter k shr_1 (Build_shr_record m false false))
  = m / 2 ^ Z.of_nat k
  /\ (shr_r (Nat.iter k shr_1 (Build_shr_record m false false)) = true ->
      2 ^ Z.of_nat k <= 2 * (m mod 2 ^ Z.of_nat k)).
Proof.
  intros Hm. induction k as [|k [IHm IHr]].
  - simpl. rewrite Z.div_1_r. split; [reflexivity|discriminate].
  - rewrite Nat.iter_succ.
    destruct (Nat.iter k shr_1 _) as [mk rk sk]. cbn [shr_m shr_r] in *.
    assert (0 < 2 ^ Z.of_nat k) as Hpow by (apply Z.pow_pos_nonneg; lia).
    assert (0 <= mk) as Hmk by (rewrite IHm; apply Z.div_pos; lia).
    destruct (shr_1_spec mk rk sk Hmk) as [H1 H2].
    rewrite Nat2Z.inj_succ, Z.pow_succ_r by lia.
    split.
    + rewrite H1, IHm, Z.div_div by lia. f_equal. lia.
    + intros Hr. specialize (H2 Hr).
      rewrite (Z.mul_comm 2 (2 ^ Z.of_nat k)), Z.rem_mul_r by lia.
      rewrite <- IHm, H2. pose proof (Z.mod_pos_bound m (2 ^ Z.of_nat k) Hpow).
      lia.
Qed.

Lemma round_nearest_even_bounds mrs :
  shr_m mrs <= round_nearest_even (shr_m mrs) (loc_of_shr_record mrs)
            <= shr_m mrs + 1
  /\ (round_nearest_even (shr_m mrs) (loc_of_shr_record mrs) = shr_m mrs + 1 ->
      shr_r mrs = true).
Proof.
  destruct mrs as [m [|] [|]]; cbn [shr_m shr_r loc_of_shr_record
                                     round_nearest_even];
    try destruct (Z.even m); split; try lia; auto; intros; lia.
Qed.

Lemma fexp_emin e : -1074 <= fexp prec emax e.
Proof. unfold fexp, SpecFloat.emin, prec, emax. lia. Qed.

Lemma fexp_eq e : fexp prec emax e = Z.max (e - 53) (-1074).
Proof. reflexivity. Qed.

(** What [binary_round_aux] returns for a mantissa that has to be shifted
    right: the mantissa divided by the power of two, rounded to one of its
    two neighbours, upwards only from the middle on. *)
Lemma round_aux_spec sx mx ex :
  let e1 := fexp prec emax (bit_length mx + ex) in
  ex < e1 -> e1 < 971 ->
  exists R,
    Zpos mx / 2 ^ (e1 - ex) <= R <= Zpos mx / 2 ^ (e1 - ex) + 1
    /\ (R = Zpos mx / 2 ^ (e1 - ex) + 1 ->
        2 ^ (e1 - ex) <= 2 * (Zpos mx mod 2 ^ (e1 - ex)))
    /\ 0 <= R <= 2 ^ 53
    /\ binary_round_aux prec emax sx (Zpos mx) ex loc_Exact
       = match R with
         | Z0 => S754_zero sx
         | Zpos p =>
             if Zpos p <? 2 ^ 53 then S754_finite sx p e1
             else S754_finite sx (2 ^ 52)%positive (e1 + 1)
         | Zneg _ => S754_nan
         end.
Proof.
  intros e1 Hn Hmax.
  pose proof (fexp_emin (bit_length mx + ex)) as Hmin. fold e1 in Hmin.
  pose proof (bit_length_bounds mx) as [Hlo Hhi].
  pose proof (bit_length_pos mx) as Hd.
  unfold binary_round_aux, shr_fexp. cbn [Zdigits2 shr_record_of_loc].
  fold (bit_length mx). fold e1.
  destruct (e1 - ex) as [|n|n] eqn:En; try lia.
  cbn [shr]. rewrite iter_pos_nat.
  destruct (shr_iter_spec (Zpos mx) (Pos.to_nat n) ltac:(lia)) as [Hm Hr].
  rewrite positive_nat_Z in Hm, Hr.
  set (mrs := Nat.iter (Pos.to_nat n) shr_1 _) in *.
  destruct (round_nearest_even_bounds mrs) as [HR Hup].
  set (R := round_nearest_even (shr_m mrs) (loc_of_shr_record mrs)) in *.
  rewrite Hm in HR, Hup.
  assert (0 < 2 ^ Zpos n) as Hpow by (apply Z.pow_pos_nonneg; lia).
  assert (Zpos mx / 2 ^ Zpos n < 2 ^ 53) as Hq.
  { apply Z.div_lt_upper_bound; [lia|].
    destruct (Z.le_gt_cases (bit_length mx) (Zpos n + 53)) as [Hle|Hgt].
    - rewrite <- Z.pow_add_r by lia.
      apply (Z.lt_le_trans _ _ _ Hhi). apply Z.pow_le_mono_r; lia.
    - exfalso. unfold e1 in En. rewrite fexp_eq in En. lia. }
  assert (0 <= Zpos mx / 2 ^ Zpos n) as Hq0 by (apply Z.div_pos; lia).
  exists R. split; [exact HR|]. split; [intros H; apply Hr; now apply Hup|].
  split; [lia|].
  replace (ex + Zpos n) with e1 by lia.
  destruct R as [|p|p] eqn:ER; try lia.
  - cbn [Zdigits2]. assert (fexp prec emax (0 + e1) - e1 <= 0) as Hz
      by (rewrite fexp_eq; lia).
    unfold shr. destruct (fexp prec emax (0 + e1) - e1); try lia; reflexivity.
  - cbn [Zdigits2]. fold (bit_length p).
    pose proof (bit_length_bounds p) as [Hplo Hphi].
    pose proof (bit_length_pos p) as Hpd.
    destruct (Z.ltb_spec (Zpos p) (2 ^ 53)) as [Hlt|Hge].
    + assert (bit_length p <= 53) as Hp53 by (apply bit_length_le; lia).
      assert (fexp prec emax (bit_length p + e1) - e1 <= 0) as Hz
        by (rewrite fexp_eq; lia).
      unfold shr.
      destruct (fexp prec emax (bit_length p + e1) - e1); try lia;
        cbn [shr_m]; assert ((e1 <=? emax - prec) = true) as ->
          by (apply Z.leb_le; unfold emax, prec; lia); reflexivity.
    + assert (Zpos p = 2 ^ 53) as Hp by lia.
      assert (p = (2 ^ 53)%positive) as ->
        by (apply Pos2Z.inj; rewrite Hp; reflexivity).
      change (bit_length (2 ^ 53)%positive) with 54.
      replace (fexp prec emax (54 + e1) - e1) with 1 by (rewrite fexp_eq; lia).
      cbn [shr iter_pos]. cbn [shr_1 shr_m Pos.pow].
      assert ((e1 + 1 <=? emax - prec) = true) as ->
        by (apply Z.leb_le; unfold emax, prec; lia).
      reflexivity.
Qed.

Lemma round_aux_exact sx mx ex :
  fexp prec emax (bit_length mx + ex) <= ex -> ex <= 971 ->
  binary_round_aux prec emax sx (Zpos mx) ex loc_Exact = S754_finite sx mx ex.
Proof.
  intros Hn Hmax.
  unfold binary_round_aux, shr_fexp. cbn [Zdigits2 shr_record_of_loc].
  fold (bit_length mx). unfold shr.
  destruct (fexp prec emax (bit_length mx + ex) - ex) eqn:E; try lia;
    cbn [shr_m round_nearest_even loc_of_shr_record Zdigits2];
    fold (bit_length mx); rewrite E;
    cbn [shr_m]; assert ((ex <=? emax - prec) = true) as ->
      by (apply Z.leb_le; unfold emax, prec; lia); reflexivity.
Qed.

Lemma shl_align_value m e ez :
  ez <= e -> Zpos (fst (shl_align m e ez)) = Zpos m * 2 ^ (e - ez).
Proof.
  intros H. unfold shl_align.
  destruct (ez - e) as [|n|n] eqn:E; try lia; cbn [fst].
  - replace (e - ez) with 0 by lia. lia.
  - rewrite Pos2Nat.inj_iter. fold (Nat.iter (Pos.to_nat n) xO m).
    fold (shift_left m (Pos.to_nat n)). rewrite Zpos_shift.
    do 2 f_equal. lia.
Qed.

(** [random * 900000] for a draw below 1: zero, or a number no greater
    than 900000 - 2^-33, the float just below 900000. *)
Lemma SFmul_900000 mr er :
  Zpos mr < 2 ^ 53 -> er <= -53 ->
  SFmul prec emax (S754_finite false mr er)
    (S754_finite false 7730941132800000 (-33)) = S754_zero false
  \/ exists mP eP,
       SFmul prec emax (S754_finite false mr er)
         (S754_finite false 7730941132800000 (-33))
       = S754_finite false mP eP
       /\ Zpos mP < 2 ^ 53
       /\ (eP <= -34 \/ (eP = -33 /\ Zpos mP <= 7730941132799999)).
Proof.
  intros Hm He. cbn [SFmul xorb].
  set (mx := (mr * 7730941132800000)%positive).
  assert (Zpos mx = Zpos mr * 7730941132800000) as Hmx by apply Pos2Z.inj_mul.
  pose proof (bit_length_bounds mx) as [Hlo Hhi].
  pose proof (bit_length_pos mx) as Hd.
  assert (bit_length mx <= 106) as Hd106 by (apply bit_length_le; lia).
  assert (53 <= bit_length mx) as Hd53.
  { destruct (Z.le_gt_cases 53 (bit_length mx)) as [|Hlt]; [assumption|].
    exfalso. assert (2 ^ bit_length mx <= 2 ^ 52)
      by (apply Z.pow_le_mono_r; lia). lia. }
  destruct (Z.le_gt_cases (fexp prec emax (bit_length mx + (er + -33)))
              (er + -33)) as [Hex|Hsh].
  - right. exists mx, (er + -33).
    rewrite round_aux_exact by lia. split; [reflexivity|].
    rewrite fexp_eq in Hex. split; [|lia].
    apply (Z.lt_le_trans _ _ _ Hhi). apply Z.pow_le_mono_r; lia.
  - destruct (round_aux_spec false mx (er + -33) Hsh)
      as (R & HR & Hup & HR53 & ->).
    { rewrite fexp_eq. lia. }
    set (e1 := fexp prec emax (bit_length mx + (er + -33))) in *.
    assert (e1 <= -33) as He1 by (unfold e1; rewrite fexp_eq; lia).
    assert (e1 = -33 -> R <= 7730941132799999) as Htop.
    { intros E. rewrite E in *.
      replace (-33 - (er + -33)) with (- er) in * by lia.
      assert (2 ^ 53 <= 2 ^ (- er)) as HX by (apply Z.pow_le_mono_r; lia).
      set (X := 2 ^ (- er)) in *. clearbody X mx.
      assert (Zpos mx / X < 7730941132800000) as Hq
        by (apply Z.div_lt_upper_bound; lia).
      destruct (Z.eq_dec R (Zpos mx / X + 1)) as [ER|]; [|lia].
      specialize (Hup ER). rewrite Z.mod_eq in Hup by lia.
      destruct (Z.eq_dec (Zpos mx / X) 7730941132799999) as [Eq|]; [|lia].
      rewrite Eq in Hup. lia. }
    destruct R as [|p|p]; [now left| |lia]. right.
    destruct (Z.ltb_spec (Zpos p) (2 ^ 53)) as [Hlt|Hge].
    + exists p, e1. split; [reflexivity|]. split; [assumption|]. lia.
    + exists (2 ^ 52)%positive, (e1 + 1). split; [reflexivity|].
      split; [reflexivity|]. assert (e1 <> -33) by lia.
      destruct (Z.eq_dec e1 (-34)) as [->|]; [|lia].
      right. split; [reflexivity|]. simpl. lia.
Qed.

(** [100000 + x] for a number [x] between zero and 900000 - 2^-33: a
    number whose integer part lies between 100000 and 999999. *)
Lemma SFadd_100000 mP eP :
  Zpos mP < 2 ^ 53 ->
  eP <= -34 \/ (eP = -33 /\ Zpos mP <= 7730941132799999) ->
  exists mS eS,
    SFadd prec emax (S754_finite false 6871947673600000 (-36))
      (S754_finite false mP eP)
    = S754_finite false mS eS
    /\ eS < 0
    /\ 100000 <= Zpos mS / 2 ^ (- eS) <= 999999.
Proof.
  intros Hm HP. cbn [SFadd cond_Zopp].
  set (ez := Z.min (-36) eP).
  rewrite !shl_align_value by (unfold ez; lia).
  (* the powers of two in play, over Y = 2^(-36 - ez) *)
  assert (0 < 2 ^ (-36 - ez)) as HY by (apply Z.pow_pos_nonneg; unfold ez; lia).
  assert (0 < 2 ^ (eP - ez)) as HW by (apply Z.pow_pos_nonneg; unfold ez; lia).
  assert (Zpos mP * 2 ^ (eP - ez) <= 61847529062399992 * 2 ^ (-36 - ez)) as HPb.
  { destruct HP as [HP|[-> HP]].
    - assert (2 * 2 ^ (eP - ez) <= 8 * 2 ^ (-36 - ez)) as Hmono.
      { change 8 with (2 ^ 3). change 2 with (2 ^ 1) at 1.
        rewrite <- !Z.pow_add_r by (unfold ez; lia).
        apply Z.pow_le_mono_r; unfold ez; lia. }
      nia.
    - replace (-33 - ez) with (3 + (-36 - ez)) by lia.
      rewrite Z.pow_add_r by (unfold ez; lia). change (2 ^ 3) with 8. nia. }
  set (Y := 2 ^ (-36 - ez)) in *. set (W := Zpos mP * 2 ^ (eP - ez)) in *.
  assert (0 < W) as HW0 by (unfold W; nia).
  destruct (Z.pos 6871947673600000 * Y + W) as [|M|M] eqn:EM; try lia.
  cbn [binary_normalize]. unfold binary_round.
  pose proof (bit_length_bounds M) as [Hlo Hhi].
  pose proof (bit_length_pos M) as Hd.
  assert (2 ^ (-36 - ez) = Y) as EY by reflexivity.
  (* the sum has between 53 and 56 bits more than Y *)
  assert (2 ^ 52 * Y <= Zpos M) as HMlo by lia.
  assert (Zpos M < 2 ^ 56 * Y) as HMhi by lia.
  assert (-36 - ez + 53 <= bit_length M <= -36 - ez + 56) as HdM.
  { split.
    - destruct (Z.le_gt_cases (-36 - ez + 53) (bit_length M)); [assumption|].
      exfalso. assert (2 ^ bit_length M <= 2 ^ (52 + (-36 - ez)))
        by (apply Z.pow_le_mono_r; lia).
      rewrite Z.pow_add_r, EY in H0 by (unfold ez; lia). lia.
    - apply bit_length_le; [unfold ez; lia|].
      replace (-36 - ez + 56) with (56 + (-36 - ez)) by lia.
      rewrite Z.pow_add_r, EY by (unfold ez; lia). lia. }
  fold (bit_length M).
  set (e1 := fexp prec emax (bit_length M + ez)).
  assert (e1 = bit_length M + ez - 53) as He1
    by (unfold e1; rewrite fexp_eq; unfold ez in *; lia).
  assert (ez <= e1 <= -33) as Hez by (unfold ez in *; lia).
  assert (-36 <= e1) as He36 by lia.
  assert (shl_align M ez e1 = (M, ez)) as ->
    by (unfold shl_align; destruct (e1 - ez) eqn:E; try lia; reflexivity).
  assert (Y * 2 ^ (36 + e1) = 2 ^ (e1 - ez)) as HYn.
  { unfold Y. rewrite <- Z.pow_add_r by lia. f_equal. lia. }
  destruct (Z.eq_dec e1 ez) as [Eez|Nez].
  - (* no bit is shifted out *)
    exists M, ez. rewrite round_aux_exact by (fold e1; lia).
    split; [reflexivity|]. split; [lia|].
    assert (ez = -36) as E36 by lia.
    rewrite E36 in *. change (2 ^ (-36 - -36)) with 1 in *.
    change (- -36) with 36. subst Y.
    split.
    + apply Z.div_le_lower_bound; lia.
    + apply Z.lt_succ_r. apply Z.div_lt_upper_bound; lia.
  - pose proof (round_aux_spec false M ez) as Hspec. cbv zeta in Hspec.
    fold e1 in Hspec.
    destruct Hspec as (R & HR & Hup & HR53 & ->); try lia.
    rewrite <- HYn in HR, Hup.
    assert (0 < Y * 2 ^ (36 + e1)) as Hn
      by (rewrite HYn; apply Z.pow_pos_nonneg; lia).
    assert (100000 * 2 ^ (- e1) <= Zpos M / (Y * 2 ^ (36 + e1))) as Hqlo.
    { apply Z.div_le_lower_bound; [lia|].
      assert (2 ^ (36 + e1) * 2 ^ (- e1) = 2 ^ 36) as Hp
        by (rewrite <- Z.pow_add_r by lia; f_equal; lia).
      nia. }
    assert (0 < 2 ^ (- e1)) as Hpe by (apply Z.pow_pos_nonneg; lia).
    assert (e1 = -33 -> R <= 8589934591999999) as Htop.
    { intros E. rewrite E in *. change (2 ^ (36 + -33)) with 8 in *.
      clearbody Y W.
      assert (Zpos M / (Y * 8) <= 8589934591999999) as Hq
        by (apply Z.lt_succ_r; apply Z.div_lt_upper_bound; lia).
      destruct (Z.eq_dec R (Zpos M / (Y * 8) + 1)) as [ER|]; [|lia].
      specialize (Hup ER). rewrite Z.mod_eq in Hup by lia.
      destruct (Z.eq_dec (Zpos M / (Y * 8)) 8589934591999999) as [Eq|]; [|lia].
      rewrite Eq in Hup. lia. }
    destruct R as [|p|p]; try lia.
    destruct (Z.ltb_spec (Zpos p) (2 ^ 53)) as [Hlt|Hge].
    + exists p, e1. split; [reflexivity|]. split; [lia|]. split.
      * apply Z.div_le_lower_bound; lia.
      * apply Z.lt_succ_r. apply Z.div_lt_upper_bound; [lia|].
        destruct (Z.eq_dec e1 (-33)) as [E|].
        -- specialize (Htop E). rewrite E. change (2 ^ (- -33)) with 8589934592.
           lia.
        -- assert (2 ^ 34 <= 2 ^ (- e1)) by (apply Z.pow_le_mono_r; lia). lia.
    + exists (2 ^ 52)%positive, (e1 + 1).
      split; [reflexivity|]. split; [lia|].
      assert (e1 <> -33) as N33 by (intros E; specialize (Htop E); lia).
      assert (e1 = -34 \/ e1 = -35 \/ e1 = -36) as [->|[->| ->]] by lia;
        vm_compute; split; discriminate.
Qed.

Lemma Prim2SF_0 : Prim2SF 0 = S754_zero false.
Proof. vm_compute. reflexivity. Qed.
Lemma Prim2SF_1 : Prim2SF 1 = S754_finite false 4503599627370496 (-52).
Proof. vm_compute. reflexivity. Qed.

Lemma compare_cont_lt m c :
  match PosDef.Pos.compare_cont Eq m c with Lt => true | _ => false end
  = true ->
  Zpos m < Zpos c.
Proof.
  intros H. apply Pos2Z.pos_lt_pos. unfold Pos.lt, Pos.compare.
  now destruct (PosDef.Pos.compare_cont Eq m c).
Qed.

Lemma below_one r :
  (0 <=? r)%float = true -> (r <? 1)%float = true ->
  (exists s, Prim2SF r = S754_zero s)
  \/ exists m e, Prim2SF r = S754_finite false m e
                 /\ Zpos m < 2 ^ 53 /\ e <= -53.
Proof.
  rewrite leb_spec, ltb_spec, Prim2SF_0, Prim2SF_1.
  pose proof (Prim2SF_valid r) as Hv.
  destruct (Prim2SF r) as [s|s| |s m e]; unfold SFleb, SFltb; cbn [SFcompare].
  - intros _ _. left. now exists s.
  - destruct s; discriminate.
  - discriminate.
  - destruct s; [discriminate|]. intros _ Hlt. right. exists m, e.
    split; [reflexivity|].
    unfold valid_binary, bounded, canonical_mantissa in Hv.
    apply andb_prop in Hv as [Hc _]. apply Z.eqb_eq in Hc.
    fold (bit_length m) in Hc. rewrite fexp_eq in Hc.
    pose proof (bit_length_bounds m) as [Hlo Hhi].
    assert (bit_length m <= 53) as Hd by lia.
    assert (Zpos m < 2 ^ 53) as Hm
      by (apply (Z.lt_le_trans _ _ _ Hhi); apply Z.pow_le_mono_r; lia).
    split; [exact Hm|].
    destruct (Z.compare_spec e (-52)) as [->|Hlt'|Hgt]; try discriminate;
      [|lia].
    exfalso. apply compare_cont_lt in Hlt.
    assert (bit_length m <= 52) by (apply bit_length_le; lia). lia.
Qed.

Lemma Prim2SF_100000 :
  Prim2SF 100000 = S754_finite false 6871947673600000 (-36).
Proof. vm_compute. reflexivity. Qed.

Lemma Prim2SF_900000 :
  Prim2SF 900000 = S754_finite false 7730941132800000 (-33).
Proof. vm_compute. reflexivity. Qed.

(** Whatever [Math.random()] draws, from 0 up to but not 1, the code of
    [generateOtp] is the decimal numeral of an integer between 100000 and
    999999: six digits, the first of which is not 0. *)
Theorem generateOtp_six_digits random :
  (0 <=? random)%float = true -> (random <? 1)%float = true ->
  exists n, 100000 <= n <= 999999 /\ generateOtp random = toString (Some n).
Proof.
  intros H0 H1. unfold generateOtp, Math_floor.
  rewrite add_spec, mul_spec.
  rewrite Prim2SF_100000, Prim2SF_900000.
  unfold SF64add, SF64mul.
  destruct (below_one random H0 H1) as [[s ->]|(m & e & -> & Hm & He)].
  - exists 100000. split; [lia|]. reflexivity.
  - destruct (SFmul_900000 m e Hm He) as [->|(mP & eP & -> & HmP & HeP)].
    + exists 100000. split; [lia|]. reflexivity.
    + destruct (SFadd_100000 mP eP HmP HeP) as (mS & eS & -> & HeS & Hn).
      exists (Zpos mS / 2 ^ (- eS)). split; [exact Hn|].
      now rewrite Z.shiftl_div_pow2 by lia.
Qed.

(** ** Lookups and rows *)

Lemma find_user_none u d :
  find_user u d = None -> filter (named u) (users d) = [].
Proof. unfold find_user. now destruct (filter _ _). Qed.

Lemma find_user_some u d user :
  find_user u d = Some user ->
  exists rows, filter (named u) (users d) = user :: rows.
Proof.
  unfold find_user. destruct (filter _ _) as [|r rows]; [discriminate|].
  intros H. injection H as ->. now exists rows.
Qed.

Lemma named_refl u i h : named u (Users.mk i u h) = true.
Proof. apply String.eqb_refl. Qed.

(** The user a fresh name finds once its row is inserted. *)
Lemma find_user_inserted u h d :
  existsb (named u) (users d) = false ->
  filter (named u) (users d ++ [Users.mk (next_id d) u h])
  = [Users.mk (next_id d) u h].
Proof.
  intros H%existsb_filter_nil. rewrite filter_app, H. simpl.
  now rewrite named_refl.
Qed.

Lemma has_user_inserted uid u h l :
  existsb (fun r => Users.id r =? uid) (l ++ [Users.mk uid u h]) = true.
Proof. rewrite existsb_app. simpl. now rewrite Z.eqb_refl, orb_true_r. Qed.

Lemma sessions_of_other uid uid' (l : list Sessions.row) :
  uid' <> uid ->
  filter (session_of uid') (filter (fun s => negb (session_of uid s)) l)
  = filter (session_of uid') l.
Proof.
  intros H. rewrite filter_filter. apply filter_ext. intros s.
  unfold session_of. destruct (Z.eqb_spec (Sessions.user_id s) uid');
    destruct (Z.eqb_spec (Sessions.user_id s) uid); simpl; congruence.
Qed.

Lemma sessions_of_insert uid uid' o t (l : list Sessions.row) :
  uid' <> uid ->
  filter (session_of uid') (l ++ [Sessions.mk uid o t])
  = filter (session_of uid') l.
Proof.
  intros H. rewrite filter_app. simpl. unfold session_of at 2. simpl.
  destruct (Z.eqb_spec uid uid'); [congruence|apply app_nil_r].
Qed.

Lemma credit_owners uid b d :
  map Accounts.user_id (accounts (credit uid b d))
  = map Accounts.user_id (accounts d).
Proof.
  unfold credit. simpl. rewrite map_map. apply map_ext.
  intros r. now destruct (account_of uid r).
Qed.

Lemma credit_other uid uid' b d :
  uid' <> uid ->
  filter (account_of uid') (accounts (credit uid b d))
  = filter (account_of uid') (accounts d).
Proof.
  intros Hne. unfold credit, account_of. simpl.
  induction (accounts d) as [|r l IH]; simpl; [reflexivity|].
  destruct (Z.eqb_spec (Accounts.user_id r) uid); simpl;
    destruct (Z.eqb_spec (Accounts.user_id r) uid'); try congruence;
    now rewrite IH.
Qed.

(** ** The stand-in for bcrypt verifies what it has hashed *)

Lemma substring_all s : substring 0 (String.length s) s = s.
Proof. induction s as [|c s IH]; simpl; [reflexivity|now rewrite IH]. Qed.

Lemma substring_append s p :
  substring (String.length s) (String.length p) (String.append s p) = p.
Proof. induction s as [|c s IH]; simpl; [apply substring_all|exact IH]. Qed.

Lemma length_append s p :
  String.length (String.append s p) = (String.length s + String.length p)%nat.
Proof. induction s as [|c s IH]; simpl; [reflexivity|now rewrite IH]. Qed.

Lemma salted_verifies p rounds salt :
  salted_compare p (salted_hash p rounds salt) = true.
Proof.
  unfold salted_compare, salted_hash. rewrite length_append.
  replace (String.length salt + String.length p - String.length p)%nat
    with (String.length salt) by lia.
  rewrite substring_append. apply String.eqb_refl.
Qed.

Section Handlers.

Variable bcrypt_hash : string -> Z -> string -> string.
Variable bcrypt_compare : string -> string -> bool.

(** ** Which requests are answered *)

(** [POST /users] and [POST /login] run inside one [try] block from their
    first statement on, and so does a pass of [clearSessions]: whatever
    calls to the store fail, the handler answers, a registration with 201
    or 500, a login with 200, 401 or 500, and the pass of the reaper ends
    without an error. *)
Theorem always_answered sch now faults d :
  (forall salt u p, exists r,
      fst (run sch now faults (register bcrypt_hash salt u p) d) = Ok r
      /\ (status r = 201 \/ status r = 500))
  /\ (forall random u p, exists r,
        fst (run sch now faults (login bcrypt_compare random u p) d) = Ok r
        /\ (status r = 200 \/ status r = 401 \/ status r = 500))
  /\ (forall date, fst (run sch now faults (clearSessions date) d) = Ok tt).
Proof.
  split; [|split].
  - intros salt u p.
    apply (wp_run sch now (register bcrypt_hash salt u p)
             (fun o _ => exists r, o = Ok r
                /\ (status r = 201 \/ status r = 500))).
    unfold register. simpl.
    repeat wp_step; eexists; split; try reflexivity; auto.
  - intros random u p.
    apply (wp_run sch now (login bcrypt_compare random u p)
             (fun o _ => exists r, o = Ok r
                /\ (status r = 200 \/ status r = 401 \/ status r = 500))).
    unfold login. simpl. repeat wp_step; eexists; split; try reflexivity; auto.
  - intros date.
    apply (wp_run sch now (clearSessions date) (fun o _ => o = Ok tt)).
    unfold clearSessions. simpl. now split.
Qed.


(** ** Names and codes that are not known *)

(** A name no user row carries: a login answers 401, every other endpoint
    that looks the user up answers 404, each with its own message, and the
    store is as it was. *)
Theorem unknown_user_is_refused sch now fs d u :
  find_user u d = None ->
  (forall random p,
      run sch now (false :: fs) (login bcrypt_compare random u p) d
      = (Ok (res 401 (Message "Login failed.")), d))
  /\ (forall salt p p',
        run sch now (false :: fs)
          (updatePassword bcrypt_hash bcrypt_compare salt u p p') d
        = (Ok (res 404 (Message "User not found.")), d))
  /\ (forall p o,
        run sch now (false :: fs) (deleteUser bcrypt_compare u p o) d
        = (Ok (res 404 (Message "User not found")), d))
  /\ (forall o,
        run sch now (false :: fs) (logout u o) d
        = (Ok (res 404 (Message "User not found or already logged out")), d))
  /\ (forall o,
        run sch now (false :: fs) (getBalance u o) d
        = (Ok (res 404 (Message "User not found or already logged out")), d))
  /\ (forall op o a,
        run sch now (false :: fs) (transaction op u o a) d
        = (Ok (res 404 (Message "User not found or already logged out")), d)).
Proof.
  intros H%find_user_none.
  unfold login, updatePassword, deleteUser, logout, getBalance, transaction.
  simpl. rewrite H. simpl. now repeat split.
Qed.

(** A deposit or a withdrawal changes the store, or answers with a balance,
    only for a user that exists, with a code that matches one of the
    session rows of that user, and with an account row to update; and this
    whatever calls to the store fail. *)
Theorem transaction_requires_session sch now faults op u o a d :
  snd (run sch now faults (transaction op u o a) d) <> d
  \/ (exists b, fst (run sch now faults (transaction op u o a) d)
                = Ok (res 200 (Balance b))) ->
  exists user b,
    find_user u d = Some user
    /\ validate (Users.id user) o d = true
    /\ balance_of (Users.id user) d = Some b.
Proof.
  rewrite transaction_run. unfold transaction_result.
  destruct (find_user u d) as [user|];
    [destruct (validate (Users.id user) o d) eqn:Hv,
       (balance_of (Users.id user) d) as [b0|] eqn:Hb|];
    destruct (nth 0 faults false), (nth 1 faults false),
      (nth 2 faults false), (nth 3 faults false); simpl;
    try (intros [H|[b H]]; [exfalso; now apply H|discriminate H]).
  intros _. now exists user, b0.
Qed.

(** ** What a request leaves alone *)

(** [POST /me/account] only reads: whatever calls to the store fail, the
    store is as it was, and a balance it answers with is the balance of the
    first account row of the user found under the name. *)
Theorem getBalance_reads_only sch now faults u o d :
  snd (run sch now faults (getBalance u o) d) = d
  /\ (forall b, fst (run sch now faults (getBalance u o) d)
                = Ok (res 200 (Balance b)) ->
      exists user, find_user u d = Some user
                   /\ balance_of (Users.id user) d = Some b).
Proof.
  apply (wp_run sch now (getBalance u o)
           (fun r d' => d' = d
              /\ forall b, r = Ok (res 200 (Balance b)) ->
                 exists user, find_user u d = Some user
                              /\ balance_of (Users.id user) d = Some b)).
  unfold getBalance, find_user, balance_of. simpl.
  repeat wp_step; try reflexivity; try discriminate.
  intros b H. injection H as <-.
  match goal with
  | Hm : map Accounts.balance (filter (account_of (Users.id ?r)) _) = _ |- _ =>
      exists r; rewrite Hm
  end.
  now split.
Qed.

(** A deposit or a withdrawal touches the balance column of the account
    rows of the user it found and nothing else: users, sessions and the
    next user id stay, no account row is added, removed or given to
    another user, and the account rows of every other user are as they
    were; and this whatever calls to the store fail. *)
Theorem transaction_is_isolated sch now faults op u o a d :
  let d' := snd (run sch now faults (transaction op u o a) d) in
  users d' = users d /\ sessions d' = sessions d /\ next_id d' = next_id d
  /\ map Accounts.user_id (accounts d') = map Accounts.user_id (accounts d)
  /\ forall user uid, find_user u d = Some user -> uid <> Users.id user ->
       filter (account_of uid) (accounts d')
       = filter (account_of uid) (accounts d).
Proof.
  cbv zeta. rewrite transaction_run. unfold transaction_result.
  destruct (nth 0 faults false); [now repeat split|].
  destruct (find_user u d) as [user|]; [|now repeat split].
  destruct (nth 1 faults false); [now repeat split|].
  destruct (negb _); [now repeat split|].
  destruct (nth 2 faults false); [now repeat split|].
  destruct (balance_of _ _); [|now repeat split].
  destruct (nth 3 faults false); [now repeat split|].
  repeat split.
  - apply credit_owners.
  - intros user' uid H. injection H as <-. apply credit_other.
Qed.

Lemma login_touches sch now random u p d :
  wp sch now (login bcrypt_compare random u p)
    (fun _ d' =>
       d' = d
       \/ exists user,
            find_user u d = Some user
            /\ bcrypt_compare p (Users.password user) = true
            /\ users d' = users d /\ accounts d' = accounts d
            /\ next_id d' = next_id d
            /\ forall uid, uid <> Users.id user ->
                 sessions_of uid d' = sessions_of uid d) d.
Proof.
  unfold login, find_user. simpl.
  repeat wp_step; try (now left);
    right;
    match goal with
    | H : filter (named u) (users d) = ?r :: _ |- _ => exists r
    end;
    (repeat split; try assumption);
    intros uid Hne; unfold sessions_of; simpl;
    rewrite ?sessions_of_insert, ?sessions_of_other by assumption;
    reflexivity.
Qed.

(** A login touches the session rows of the user it found and nothing
    else: users, accounts and the next user id stay, the session rows of
    every other user are as they were, and with an unknown name or a
    password that does not verify the whole store is as it was; and this
    whatever calls to the store fail. *)
Theorem login_is_isolated sch now faults random u p d :
  let d' := snd (run sch now faults (login bcrypt_compare random u p) d) in
  users d' = users d /\ accounts d' = accounts d /\ next_id d' = next_id d
  /\ (find_user u d = None -> d' = d)
  /\ forall user, find_user u d = Some user ->
       (bcrypt_compare p (Users.password user) = false -> d' = d)
       /\ forall uid, uid <> Users.id user ->
            sessions_of uid d' = sessions_of uid d.
Proof.
  cbv zeta.
  destruct (wp_run sch now _ _ d faults (login_touches sch now random u p d))
    as [->|(user & Hu & Hp & H1 & H2 & H3 & H4)].
  - repeat split; reflexivity.
  - rewrite Hu. do 3 (split; [assumption|]). split; [discriminate|].
    intros user' Hu'. injection Hu' as <-. split; [congruence|exact H4].
Qed.

(** ** One endpoint after the other *)

Lemma register_succeeds sch now d salt u p :
  existsb (named u) (users d) = false ->
  existsb (account_of (next_id d)) (accounts d) = false ->
  run sch now [] (register bcrypt_hash salt u p) d
  = (Ok (res 201 (Message "User created")),
     mkDb (users d ++ [Users.mk (next_id d) u (bcrypt_hash p 10 salt)])
          (sessions d) (accounts d ++ [Accounts.mk (next_id d) 0%float])
          (next_id d + 1)).
Proof.
  intros Hu Ha. unfold register, encryptPassword. simpl.
  rewrite Hu, andb_false_r. simpl. rewrite (find_user_inserted _ _ _ Hu). simpl.
  unfold orphan, has_user. simpl. rewrite has_user_inserted, Ha, andb_false_r.
  now destruct (accounts_fk sch).
Qed.

Lemma login_wrong_password sch now d random u p user :
  find_user u d = Some user ->
  bcrypt_compare p (Users.password user) = false ->
  run sch now [] (login bcrypt_compare random u p) d
  = (Ok (res 401 (Message "Login failed.")), d).
Proof.
  intros Hu Hp. destruct (find_user_some _ _ _ Hu) as [rows Hr].
  unfold login. simpl. rewrite Hr. simpl. now rewrite Hp.
Qed.

Lemma login_unknown sch now d random u p :
  find_user u d = None ->
  run sch now [] (login bcrypt_compare random u p) d
  = (Ok (res 401 (Message "Login failed.")), d).
Proof.
  intros Hu%find_user_none. unfold login. simpl. now rewrite Hu.
Qed.

Section Verified.

(** What the handlers expect of bcrypt: a password verifies against the
    hash [encryptPassword] made of it. *)
Hypothesis bcrypt_verifies :
  forall p salt, bcrypt_compare p (bcrypt_hash p 10 salt) = true.

(** Registering and then logging in: for a name that is free (and a user
    id that has no account row yet), the registration answers 201, stores
    the hash [encryptPassword] made of the password, not the password, and
    opens an account with balance 0; a login with the same name and
    password then answers 200 with a code, and that code validates for the
    new user. *)
Theorem register_then_login sch now1 now2 d salt random u p :
  existsb (named u) (users d) = false ->
  existsb (account_of (next_id d)) (accounts d) = false ->
  let d1 := snd (run sch now1 [] (register bcrypt_hash salt u p) d) in
  let d2 := snd (run sch now2 [] (login bcrypt_compare random u p) d1) in
  fst (run sch now1 [] (register bcrypt_hash salt u p) d)
  = Ok (res 201 (Message "User created"))
  /\ find_user u d1 = Some (Users.mk (next_id d) u (bcrypt_hash p 10 salt))
  /\ balance_of (next_id d) d1 = Some 0%float
  /\ fst (run sch now2 [] (login bcrypt_compare random u p) d1)
     = Ok (res 200 (Otp (generateOtp random)))
  /\ validate (next_id d) (generateOtp random) d2 = true.
Proof.
  intros Hu Ha. cbv zeta. rewrite (register_succeeds _ _ _ _ _ _ Hu Ha).
  cbn [fst snd].
  set (user := Users.mk (next_id d) u (bcrypt_hash p 10 salt)).
  set (d1 := mkDb _ _ _ _).
  assert (find_user u d1 = Some user) as Hf
    by (unfold find_user, d1, user; cbn [users];
        now rewrite (find_user_inserted _ _ _ Hu)).
  rewrite (login_succeeds bcrypt_compare sch now2 d1 random u p user Hf)
    by apply bcrypt_verifies.
  split; [reflexivity|]. split; [exact Hf|]. split; [|split; [reflexivity|]].
  - unfold balance_of, d1. simpl. apply existsb_filter_nil in Ha.
    rewrite filter_app, Ha. simpl. unfold account_of. simpl.
    now rewrite Z.eqb_refl.
  - unfold validate. simpl. rewrite filter_app. simpl.
    unfold session_is at 2. simpl. rewrite Z.eqb_refl, String.eqb_refl. simpl.
    rewrite length_app. simpl. apply negb_true_iff, Nat.eqb_neq. lia.
Qed.

(** Changing the password and then logging in: when the old password
    verifies, the change answers 200; a login with the new password then
    answers 200 with a code, and a login with a password that does not
    verify against the new hash answers 401 and changes nothing. *)
Theorem new_password_logs_in sch now1 now2 d salt random u p p' user :
  find_user u d = Some user ->
  bcrypt_compare p (Users.password user) = true ->
  let d1 :=
    snd (run sch now1 []
           (updatePassword bcrypt_hash bcrypt_compare salt u p p') d) in
  fst (run sch now1 []
         (updatePassword bcrypt_hash bcrypt_compare salt u p p') d)
  = Ok (res 200 (Message "Password updated"))
  /\ fst (run sch now2 [] (login bcrypt_compare random u p') d1)
     = Ok (res 200 (Otp (generateOtp random)))
  /\ forall q, bcrypt_compare q (bcrypt_hash p' 10 salt) = false ->
       run sch now2 [] (login bcrypt_compare random u q) d1
       = (Ok (res 401 (Message "Login failed.")), d1).
Proof.
  intros Hu Hp. cbv zeta.
  assert (run sch now1 []
            (updatePassword bcrypt_hash bcrypt_compare salt u p p') d
          = (Ok (res 200 (Message "Password updated")),
             set_users d
               (map (repassword (bcrypt_hash p' 10 salt) (Users.id user))
                    (users d)))) as ->.
  { destruct (find_user_some _ _ _ Hu) as [rows Hr].
    unfold updatePassword, encryptPassword. simpl. rewrite Hr. simpl.
    now rewrite Hp. }
  cbn [fst snd].
  set (d1 := set_users _ _).
  assert (find_user u d1
          = Some (Users.mk (Users.id user) (Users.username user)
                    (bcrypt_hash p' 10 salt))) as Hf.
  { unfold d1. rewrite find_user_repassword, Hu. simpl. unfold repassword.
    now rewrite Z.eqb_refl. }
  split; [reflexivity|]. split.
  - rewrite (login_succeeds bcrypt_compare sch now2 d1 random u p' _ Hf);
      [reflexivity|apply bcrypt_verifies].
  - intros q Hq. now apply (login_wrong_password sch now2 d1 random u q _ Hf).
Qed.

End Verified.

(** After a deletion that answered 200, whatever the schema and whatever
    calls to the store failed on the way: the password had verified for the
    user found, no user row carries the name any more, and a login with the
    name answers 401. *)
Theorem deleted_user_is_gone sch now faults d u p o :
  fst (run sch now faults (deleteUser bcrypt_compare u p o) d)
  = Ok (res 200 (Message "User deleted")) ->
  let d' := snd (run sch now faults (deleteUser bcrypt_compare u p o) d) in
  (exists user, find_user u d = Some user
                /\ bcrypt_compare p (Users.password user) = true)
  /\ find_user u d' = None
  /\ forall now' random q,
       run sch now' [] (login bcrypt_compare random u q) d'
       = (Ok (res 401 (Message "Login failed.")), d').
Proof.
  cbv zeta. intros H.
  enough ((exists user, find_user u d = Some user
                        /\ bcrypt_compare p (Users.password user) = true)
          /\ find_user u
               (snd (run sch now faults (deleteUser bcrypt_compare u p o) d))
             = None) as (H1 & H2)
    by (split; [exact H1|split; [exact H2|]]; intros now' random q;
        now apply login_unknown).
  revert H.
  apply (wp_run sch now (deleteUser bcrypt_compare u p o)
           (fun r d' => r = Ok (res 200 (Message "User deleted")) ->
              (exists user, find_user u d = Some user
                            /\ bcrypt_compare p (Users.password user) = true)
              /\ find_user u d' = None)).
  unfold deleteUser, find_user. simpl.
  repeat wp_step; try discriminate; intros _;
    match goal with
    | H : filter (named u) (users d) = ?r :: _, Hc : negb _ = false |- _ =>
        apply negb_false_iff in Hc;
        (split; [exists r; now split|])
    end;
    rewrite filter_filter, filter_nothing; try reflexivity;
    intros x _; now destruct (named u x).
Qed.

(** A deletion is two statements and no transaction: the session row is
    deleted before the user row, outside the [try] block.  When the
    deletion of the user then fails, because the call fails or because the
    store refuses the statement, the answer is 500 and the user stays, but
    the session is gone: the code validates no more. *)
Theorem failed_deletion_ends_session sch now d u p o user :
  find_user u d = Some user ->
  bcrypt_compare p (Users.password user) = true ->
  let d' :=
    set_sessions d
      (filter (fun s => negb (session_is (Users.id user) o s)) (sessions d)) in
  run sch now [false; false; true] (deleteUser bcrypt_compare u p o) d
  = (Ok (res 500 (Message "Failed to delete user")), d')
  /\ (fst (exec sch now (DeleteUser u) d') = Err ForeignKeyFails ->
      run sch now [] (deleteUser bcrypt_compare u p o) d
      = (Ok (res 500 (Message "Failed to delete user")), d'))
  /\ find_user u d' = Some user
  /\ validate (Users.id user) o d' = false.
Proof.
  intros Hu Hp. cbv zeta. destruct (find_user_some _ _ _ Hu) as [rows Hr].
  set (d' := set_sessions _ _).
  split; [|split; [|split]].
  - unfold deleteUser. simpl. rewrite Hr. simpl. now rewrite Hp.
  - unfold deleteUser. cbn [run query exec tl]. rewrite Hr.
    cbn [run query exec tl negb]. rewrite Hp.
    cbn [run query exec tl negb try_catch]. fold d'. cbn [exec].
    destruct (restricted _ _ _ _ || restricted _ _ _ _);
      [reflexivity|discriminate].
  - exact Hu.
  - unfold validate, d'. simpl. rewrite filter_filter, filter_nothing;
      [reflexivity|]. intros s _. now destruct (session_is _ _ s).
Qed.

(** Logging out and then using the code: after a logout of a known user
    with the code [o], that code validates no more for the user, a deposit
    or a withdrawal made with it answers 404, and every other pair of user
    and code validates as it did before. *)
Theorem logout_ends_session sch now d u o user :
  find_user u d = Some user ->
  let d' := snd (run sch now [] (logout u o) d) in
  validate (Users.id user) o d' = false
  /\ (forall now' op a,
        run sch now' [] (transaction op u o a) d'
        = (Ok (res 404 (Message "Invalid session or OTP")), d'))
  /\ forall uid o', (uid <> Users.id user \/ o' <> o) ->
       validate uid o' d' = validate uid o' d.
Proof.
  intros Hu. cbv zeta. destruct (find_user_some _ _ _ Hu) as [rows Hr].
  assert (run sch now [] (logout u o) d
          = (Ok (res 200 (Message "Logout successful")),
             set_sessions d
               (filter (fun s => negb (session_is (Users.id user) o s))
                       (sessions d)))) as ->
    by (unfold logout; simpl; now rewrite Hr).
  cbn [snd]. set (d' := set_sessions _ _).
  assert (validate (Users.id user) o d' = false) as Hv.
  { unfold validate, d'. simpl. rewrite filter_filter, filter_nothing;
      [reflexivity|]. intros s _. now destruct (session_is _ _ s). }
  split; [exact Hv|]. split.
  - intros now' op a. rewrite transaction_run. unfold transaction_result.
    simpl. change (find_user u d') with (find_user u d). now rewrite Hu, Hv.
  - intros uid o' Hne. unfold validate, d'. simpl. rewrite filter_filter.
    do 3 f_equal. apply filter_ext. intros s. unfold session_is.
    destruct (Z.eqb_spec (Sessions.user_id s) uid),
      (Z.eqb_spec (Sessions.user_id s) (Users.id user)),
      (String.eqb_spec (Sessions.otp s) o'),
      (String.eqb_spec (Sessions.otp s) o); simpl; try reflexivity.
    exfalso. destruct Hne; congruence.
Qed.

(** Logging in at [t] and a pass of [clearSessions] at [t']: the code of
    the login validates after the pass exactly when the pass comes no more
    than ten minutes after the login; later than that, the user has no
    session row left. *)
Theorem session_lifetime sch t t' d random u p user :
  find_user u d = Some user ->
  bcrypt_compare p (Users.password user) = true ->
  let d1 := snd (run sch t [] (login bcrypt_compare random u p) d) in
  let d2 := snd (run sch t' [] (clearSessions t') d1) in
  validate (Users.id user) (generateOtp random) d2 = (t' - t <=? tenMinutes)
  /\ (t' - t > tenMinutes -> sessions_of (Users.id user) d2 = []).
Proof.
  intros Hu Hp. cbv zeta.
  rewrite (login_succeeds bcrypt_compare sch t d random u p user Hu Hp).
  cbn [snd]. unfold clearSessions, validate, sessions_of. simpl.
  rewrite !filter_app, !filter_filter. simpl.
  rewrite !(filter_nothing _ (sessions d)).
  - unfold session_is, session_of. simpl.
    rewrite Z.eqb_refl, String.eqb_refl. simpl.
    destruct (Z.ltb_spec t (t' - tenMinutes)), (Z.leb_spec (t' - t) tenMinutes);
      simpl; try lia; split; try reflexivity; lia.
  - intros s _. destruct (session_of (Users.id user) s); simpl;
      [reflexivity|apply andb_false_r].
  - intros s _. unfold session_is, session_of.
    destruct (Sessions.user_id s =? Users.id user); simpl;
      [reflexivity|apply andb_false_r].
Qed.


(** The balance a deposit or a withdrawal answers with is the balance
    [POST /me/account] reports afterwards, whatever numbers the balance and
    the amount are. *)
Theorem balance_is_reported sch now now' op u o o' a d user b :
  find_user u d = Some user ->
  validate (Users.id user) o d = true ->
  balance_of (Users.id user) d = Some b ->
  let d1 := snd (run sch now [] (transaction op u o a) d) in
  fst (run sch now [] (transaction op u o a) d)
  = Ok (res 200 (Balance (op (parseFloat b) (parseFloat a))))
  /\ run sch now' [] (getBalance u o') d1
     = (Ok (res 200 (Balance (op (parseFloat b) (parseFloat a)))), d1).
Proof.
  intros Hu Hv Hb. cbv zeta. rewrite transaction_run.
  unfold transaction_result. simpl nth. cbv iota. rewrite Hu, Hv, Hb.
  cbn [negb fst snd]. split; [reflexivity|].
  apply (getBalance_any_otp sch now' _ u o' user).
  - now rewrite find_user_credit.
  - now apply (balance_of_credit _ _ b).
Qed.

(** The handlers check neither the sign of an amount nor the balance that
    results.  On integers below 2^53: a withdrawal of [a] from [b] answers
    200 and leaves [b - a], below zero when [a] exceeds [b]; and a deposit
    of [- a] is that withdrawal. *)
Theorem amounts_are_not_checked sch now u o d user b a :
  find_user u d = Some user ->
  validate (Users.id user) o d = true ->
  balance_of (Users.id user) d = Some (number b) ->
  Z.abs b < 2 ^ 53 -> Z.abs a < 2 ^ 53 -> Z.abs (b - a) < 2 ^ 53 ->
  run sch now [] (withdraw u o (number a)) d
  = (Ok (res 200 (Balance (number (b - a)))),
     credit (Users.id user) (number (b - a)) d)
  /\ run sch now [] (deposit u o (number (- a))) d
     = run sch now [] (withdraw u o (number a)) d.
Proof.
  intros Hu Hv Hb Hb53 Ha53 Hs53.
  rewrite (withdraw_number sch now u o d user b a) by assumption.
  split; [reflexivity|].
  rewrite (deposit_number sch now u o d user b (- a)) by (try assumption; lia).
  reflexivity.
Qed.

(** Deposits and withdrawals served one after the other keep the books:
    from an integer balance [b], with integer amounts none of which
    exceeds [A] in size, the balance ends at [b] plus the deposits minus
    the withdrawals, as long as the sums stay below 2^53.  A request is a
    time, whether it is a deposit, and the amount. *)
Theorem transactions_add_up sch u o user A :
  forall (l : list (Z * bool * Z)) b d,
  find_user u d = Some user ->
  validate (Users.id user) o d = true ->
  balance_of (Users.id user) d = Some (number b) ->
  Forall (fun t => Z.abs (snd t) <= A) l ->
  Z.abs b + A * Z.of_nat (List.length l) < 2 ^ 53 ->
  balance_of (Users.id user)
    (serve bcrypt_hash bcrypt_compare sch
       (map (fun t : Z * bool * Z =>
               let '(now, is_deposit, a) := t in
               Request now []
                 (if is_deposit then POST_deposit u o (number a)
                  else POST_withdraw u o (number a)))
            l)
       d)
  = Some (number
            (fold_left (fun s (t : Z * bool * Z) =>
                          let '(_, is_deposit, a) := t in
                          if is_deposit then s + a else s - a)
                       l b)).
Proof.
  induction l as [|[[now is_deposit] a] l IH]; intros b d Hu Hv Hb HA H53.
  - exact Hb.
  - apply Forall_cons_iff in HA as [Ha HA]. cbn [snd] in Ha.
    cbn [List.length] in H53. rewrite Nat2Z.inj_succ, Z.mul_succ_r in H53.
    assert (0 <= A * Z.of_nat (List.length l)) as Hpos
      by (apply Z.mul_nonneg_nonneg; lia).
    cbn [map fold_left]. rewrite serve_cons.
    destruct is_deposit.
    + change (after bcrypt_hash bcrypt_compare sch
                (Request now [] (POST_deposit u o (number a))) d)
        with (snd (run sch now [] (deposit u o (number a)) d)).
      rewrite (deposit_number sch now u o d user b a) by (assumption || lia).
      cbn [snd]. apply IH; try assumption; try lia.
      now apply (balance_of_credit _ _ (number b)).
    + change (after bcrypt_hash bcrypt_compare sch
                (Request now [] (POST_withdraw u o (number a))) d)
        with (snd (run sch now [] (withdraw u o (number a)) d)).
      rewrite (withdraw_number sch now u o d user b a) by (assumption || lia).
      cbn [snd]. apply IH; try assumption; try lia.
      now apply (balance_of_credit _ _ (number b)).
Qed.

End Handlers.

(** ** These properties at work on the scenarios *)


Lemma unknown_user_is_refused_witness :
  run spec_schema 3000 [false] (login salted_compare 0.5%float "bob" "pw1")
      alice_logged_in
  = (Ok (res 401 (Message "Login failed.")), alice_logged_in)
  /\ run spec_schema 3000 [false] (deposit "bob" "550000" 1%float)
         alice_logged_in
     = (Ok (res 404 (Message "User not found or already logged out")),
        alice_logged_in).
Proof.
  pose proof (unknown_user_is_refused salted_hash salted_compare spec_schema
                3000 [] alice_logged_in "bob" eq_refl) as H.
  split; [apply H|apply (proj2 (proj2 (proj2 (proj2 (proj2 H)))))].
Defined.

Lemma transaction_requires_session_witness :
  exists user b,
    find_user "alice" alice_logged_in = Some user
    /\ validate (Users.id user) "550000" alice_logged_in = true
    /\ balance_of (Users.id user) alice_logged_in = Some b.
Proof.
  apply (transaction_requires_session spec_schema 2000 [] PrimFloat.add
           "alice" "550000" 1%float alice_logged_in).
  right. exists 1%float. reflexivity.
Defined.

Lemma register_then_login_witness :
  fst (run spec_schema 0 [] (register salted_hash "salt" "alice" "pw1")
         empty_db)
  = Ok (res 201 (Message "User created"))
  /\ find_user "alice" alice_registered = Some (Users.mk 1 "alice" "saltpw1")
  /\ balance_of 1 alice_registered = Some 0%float
  /\ fst (run spec_schema 1000 []
            (login salted_compare 0.5%float "alice" "pw1") alice_registered)
     = Ok (res 200 (Otp "550000"))
  /\ validate 1 "550000" alice_logged_in = true.
Proof.
  apply (register_then_login salted_hash salted_compare
           (fun p salt => salted_verifies p 10 salt)
           spec_schema 0 1000 empty_db "salt" 0.5%float "alice" "pw1");
    reflexivity.
Defined.

Lemma new_password_logs_in_witness :
  fst (run spec_schema 2000 []
         (updatePassword salted_hash salted_compare "pepper" "alice" "pw1"
            "pw2")
         alice_logged_in)
  = Ok (res 200 (Message "Password updated"))
  /\ fst (run spec_schema 3000 []
            (login salted_compare 0.25%float "alice" "pw2")
            (snd (run spec_schema 2000 []
                    (updatePassword salted_hash salted_compare "pepper"
                       "alice" "pw1" "pw2")
                    alice_logged_in)))
     = Ok (res 200 (Otp (generateOtp 0.25%float)))
  /\ fst (run spec_schema 3000 []
            (login salted_compare 0.25%float "alice" "pw1")
            (snd (run spec_schema 2000 []
                    (updatePassword salted_hash salted_compare "pepper"
                       "alice" "pw1" "pw2")
                    alice_logged_in)))
     = Ok (res 401 (Message "Login failed.")).
Proof.
  destruct (new_password_logs_in salted_hash salted_compare
              (fun p salt => salted_verifies p 10 salt)
              spec_schema 2000 3000 alice_logged_in "pepper" 0.25%float
              "alice" "pw1" "pw2" (Users.mk 1 "alice" "saltpw1")
              eq_refl eq_refl) as (H1 & H2 & H3).
  split; [exact H1|]. split; [exact H2|].
  now rewrite (H3 "pw1" eq_refl).
Defined.

Lemma deleted_user_is_gone_witness :
  find_user "alice"
    (snd (run spec_schema 2000 []
            (deleteUser salted_compare "alice" "pw1" "550000")
            alice_logged_in))
  = None.
Proof.
  apply (deleted_user_is_gone salted_compare spec_schema 2000 []
           alice_logged_in "alice" "pw1" "550000").
  reflexivity.
Defined.

Lemma failed_deletion_ends_session_witness :
  run spec_schema 2000 [false; false; true]
      (deleteUser salted_compare "alice" "pw1" "550000") alice_logged_in
  = (Ok (res 500 (Message "Failed to delete user")), alice_logged_out)
  /\ find_user "alice" alice_logged_out = Some (Users.mk 1 "alice" "saltpw1")
  /\ validate 1 "550000" alice_logged_out = false.
Proof.
  destruct (failed_deletion_ends_session salted_compare spec_schema 2000
              alice_logged_in "alice" "pw1" "550000"
              (Users.mk 1 "alice" "saltpw1") eq_refl eq_refl)
    as (H1 & _ & H3 & H4).
  split; [exact H1|]. split; [exact H3|exact H4].
Defined.

Lemma logout_ends_session_witness :
  validate 1 "550000" alice_logged_in = true
  /\ validate 1 "550000" alice_logged_out = false
  /\ run spec_schema 3000 [] (deposit "alice" "550000" 1%float)
         alice_logged_out
     = (Ok (res 404 (Message "Invalid session or OTP")), alice_logged_out).
Proof.
  destruct (logout_ends_session spec_schema 2000 alice_logged_in
              "alice" "550000" (Users.mk 1 "alice" "saltpw1") eq_refl)
    as (H1 & H2 & _).
  split; [reflexivity|]. split; [exact H1|].
  exact (H2 3000 PrimFloat.add 1%float).
Defined.

Lemma session_lifetime_witness :
  validate 1 "550000"
    (snd (run spec_schema 601000 [] (clearSessions 601000) alice_logged_in))
  = true
  /\ validate 1 "550000"
       (snd (run spec_schema 601001 [] (clearSessions 601001)
               alice_logged_in))
     = false.
Proof.
  split.
  - apply (session_lifetime salted_compare spec_schema 1000 601000
             alice_registered 0.5%float "alice" "pw1"
             (Users.mk 1 "alice" "saltpw1")); reflexivity.
  - apply (session_lifetime salted_compare spec_schema 1000 601001
             alice_registered 0.5%float "alice" "pw1"
             (Users.mk 1 "alice" "saltpw1")); reflexivity.
Defined.


Lemma balance_is_reported_witness :
  fst (run spec_schema 2000 []
         (deposit "alice" "550000" 0x1.999999999999ap-4%float)
         alice_logged_in)
  = Ok (res 200 (Balance 0x1.999999999999ap-4%float))
  /\ run spec_schema 3000 [] (getBalance "alice" "550000") alice_has_a_tenth
     = (Ok (res 200 (Balance 0x1.999999999999ap-4%float)), alice_has_a_tenth).
Proof.
  apply (balance_is_reported spec_schema 2000 3000 PrimFloat.add
           "alice" "550000" "550000" 0x1.999999999999ap-4%float
           alice_logged_in (Users.mk 1 "alice" "saltpw1") 0%float);
    reflexivity.
Defined.

Lemma amounts_are_not_checked_witness :
  run spec_schema 2000 [] (withdraw "alice" "550000" (number 40))
      alice_logged_in
  = (Ok (res 200 (Balance (number (0 - 40)))),
     credit 1 (number (0 - 40)) alice_logged_in)
  /\ run spec_schema 2000 [] (deposit "alice" "550000" (number (- 40)))
         alice_logged_in
     = run spec_schema 2000 [] (withdraw "alice" "550000" (number 40))
           alice_logged_in.
Proof.
  apply (amounts_are_not_checked spec_schema 2000 "alice" "550000"
           alice_logged_in (Users.mk 1 "alice" "saltpw1") 0 40);
    try reflexivity; try lia.
Defined.

Lemma transactions_add_up_witness :
  balance_of 1
    (serve salted_hash salted_compare spec_schema
       [Request 2000 [] (POST_deposit "alice" "550000" (number 100));
        Request 3000 [] (POST_withdraw "alice" "550000" (number 30));
        Request 4000 [] (POST_deposit "alice" "550000" (number 5))]
       alice_logged_in)
  = Some (number 75).
Proof.
  apply (transactions_add_up salted_hash salted_compare spec_schema
           "alice" "550000" (Users.mk 1 "alice" "saltpw1") 100
           [(2000, true, 100); (3000, false, 30); (4000, true, 5)]
           0 alice_logged_in); try reflexivity; try lia.
  repeat constructor; simpl; lia.
Defined.

Lemma generateOtp_six_digits_witness :
  exists n, 100000 <= n <= 999999 /\ generateOtp 0.5%float = toString (Some n).
Proof. apply generateOtp_six_digits; reflexivity. Defined.
